(** * Space Elevator MVP: the simulation core of [backend/main.py]

    A shallow embedding of the cabin state, the simulation tick
    ([sim_loop]), the command processor ([send_command]), the error
    recovery timer ([_clear_error]) and the warehouse list
    ([add_parcel]), followed by the properties of the specification that
    concern them.

    Python's [float] is kept behind the interface [Num], so that the
    properties that do not depend on the arithmetic are stated for any;
    the program runs on its instance [Float64], IEEE 754 binary64, the
    arithmetic of CPython: every concrete run below is evaluated there,
    bit for bit, and the properties of the motion are proved there, from
    the specification of the rounding. *)

From Stdlib Require Import ZArith QArith Lia List String Bool.
From Stdlib Require Import Floats.
Import ListNotations.

(** ** Numbers *)

(** The operations the program performs on floats.  [lit q] is the float
    literal written as the decimal [q]; [of_int] is [float(n)] on a Python
    [int], which raises [OverflowError] ([None]) when [n] is too large. *)
Class Num (num : Type) : Type := {
  lit : Q -> num;
  of_int : Z -> option num;
  nadd : num -> num -> num;
  nsub : num -> num -> num;
  nmul : num -> num -> num;
  ndiv : num -> num -> num;
  nabs : num -> num;
  nltb : num -> num -> bool;
  nleb : num -> num -> bool;
  neqb : num -> num -> bool
}.

Declare Scope num_scope.
Delimit Scope num_scope with num.
Infix "+" := nadd : num_scope.
Infix "-" := nsub : num_scope.
Infix "*" := nmul : num_scope.
Infix "/" := ndiv : num_scope.
Infix "<?" := nltb : num_scope.
Infix "<=?" := nleb : num_scope.
Infix "==?" := neqb (at level 70) : num_scope.
Notation "a >? b" := (nltb b a) (at level 70) : num_scope.

(** *** binary64 *)

Module Float64.

(** The nearest binary64 to an integer, ties to even. *)
Definition of_Z (z : Z) : spec_float := binary_normalize prec emax z 0 false.

Definition float_of_int (z : Z) : option float :=
  match of_Z z with
  | S754_infinity _ => None
  | sf => Some (SF2Prim sf)
  end.

(** A decimal literal [n/d] denotes the binary64 nearest to it; for
    [n] and [d] below [2^53] that is the quotient of the two floats. *)
Definition literal (q : Q) : float :=
  (SF2Prim (of_Z (Qnum q)) / SF2Prim (of_Z (Zpos (Qden q))))%float.

#[global] Instance float64 : Num float := {|
  lit := literal;
  of_int := float_of_int;
  nadd := PrimFloat.add;
  nsub := PrimFloat.sub;
  nmul := PrimFloat.mul;
  ndiv := PrimFloat.div;
  nabs := PrimFloat.abs;
  nltb := PrimFloat.ltb;
  nleb := PrimFloat.leb;
  neqb := PrimFloat.eqb
|}.

End Float64.

(** ** Data model *)

Inductive Doors := OPEN | CLOSED.
Inductive Cabin := IDLE | MOVING | ERROR.
Inductive ParcelStatus := QUEUED | LOADED | SHIPPED | DELIVERED.

Section Model.
Context {num : Type} {N : Num num}.
Local Open Scope num_scope.

(** The dictionary [STATE]. *)
Record State := mkState {
  position_km : num;
  speed_ms : num;
  payload_kg : num;
  doors : Doors;
  running : bool;
  target_km : num;
  cabin : Cabin
}.

(** A parcel as [Parcel.model_dump()] stores it in [PARCELS]. *)
Record Parcel := mkParcel {
  id : string;
  weight_kg : num;
  destination_km : num;
  status : ParcelStatus
}.

(** The module's globals, with the number of [_clear_error] tasks that
    were created and have not run yet. *)
Record World := mkWorld {
  STATE : State;
  SETPOINT_MS : num;
  PARCELS : list Parcel;
  pending_clear_error : nat
}.

Definition set_position_km (x : num) (s : State) : State :=
  mkState x (speed_ms s) (payload_kg s) (doors s) (running s) (target_km s) (cabin s).
Definition set_speed_ms (x : num) (s : State) : State :=
  mkState (position_km s) x (payload_kg s) (doors s) (running s) (target_km s) (cabin s).
Definition set_payload_kg (x : num) (s : State) : State :=
  mkState (position_km s) (speed_ms s) x (doors s) (running s) (target_km s) (cabin s).
Definition set_doors_field (d : Doors) (s : State) : State :=
  mkState (position_km s) (speed_ms s) (payload_kg s) d (running s) (target_km s) (cabin s).
Definition set_running (b : bool) (s : State) : State :=
  mkState (position_km s) (speed_ms s) (payload_kg s) (doors s) b (target_km s) (cabin s).
Definition set_target_km (x : num) (s : State) : State :=
  mkState (position_km s) (speed_ms s) (payload_kg s) (doors s) (running s) x (cabin s).
Definition set_cabin (c : Cabin) (s : State) : State :=
  mkState (position_km s) (speed_ms s) (payload_kg s) (doors s) (running s) (target_km s) c.

Definition with_STATE (s : State) (w : World) : World :=
  mkWorld s (SETPOINT_MS w) (PARCELS w) (pending_clear_error w).

Definition doors_open (d : Doors) : bool :=
  match d with OPEN => true | CLOSED => false end.

Definition cabin_eqb (a b : Cabin) : bool :=
  match a, b with
  | IDLE, IDLE | MOVING, MOVING | ERROR, ERROR => true
  | _, _ => false
  end.

(** [STATE] and [SETPOINT_MS] at import time. *)
Definition STATE0 : State :=
  mkState (lit 0) (lit 0) (lit 0) CLOSED false (lit 0) IDLE.
Definition World0 : World := mkWorld STATE0 (lit 20) [] 0.

(** ** The simulation loop *)

Definition TICK : num := lit 0.2.

(** One iteration of the [while True] body of [sim_loop], as it runs
    under [LOCK]. *)
Definition tick (w : World) : World :=
  let s := STATE w in
  let moving :=
    running s && negb (doors_open (doors s)) &&
    (nabs (target_km s - position_km s) >? lit 0.01) in
  if moving then
    let s := set_cabin MOVING s in
    let direction := if target_km s >? position_km s then lit 1 else lit (-1) in
    let delta_km := (SETPOINT_MS w / lit 1000) * TICK in
    let s := set_position_km (position_km s + direction * delta_km) s in
    let s := set_speed_ms (direction * SETPOINT_MS w) s in
    let arrived :=
      ((target_km s - position_km s) * direction <=? lit 0)
      || (nabs (target_km s - position_km s) <? lit 0.005) in
    if arrived then
      let s := set_position_km (target_km s) s in
      let s := set_running false s in
      let s := set_speed_ms (lit 0) s in
      let s := set_cabin IDLE s in
      with_STATE s w
    else with_STATE s w
  else
    let s := set_speed_ms (lit 0) s in
    let s := if negb (running s) then set_cabin IDLE s else s in
    with_STATE s w.

(** [n] iterations of [sim_loop] with nothing in between. *)
Fixpoint sim_loop (n : nat) (w : World) : World :=
  match n with
  | O => w
  | S n' => sim_loop n' (tick w)
  end.

(** ** Command payloads *)

(** A JSON value once parsed into Python: what [payload: Dict[str, Any]]
    may hold. *)
#[local] Set Warnings "-register-all".
Inductive pyval :=
| PyNone
| PyBool (b : bool)
| PyInt (z : Z)
| PyFloat (x : num)
| PyStr (s : string)
| PyList (l : list pyval)
| PyDict (d : list (string * pyval)).

Definition dict := list (string * pyval).

(** [d.get(k)]. *)
Fixpoint dict_get (k : string) (d : dict) : option pyval :=
  match d with
  | [] => None
  | (k', v) :: d' => if String.eqb k k' then Some v else dict_get k d'
  end.

(** [d.get(k, default)]. *)
Definition dict_get_default (k : string) (default : pyval) (d : dict) : pyval :=
  match dict_get k d with
  | Some v => v
  | None => default
  end.

Inductive Action :=
| start | stop | emergency_stop
| set_doors | set_target | set_speed
| load_from_warehouse.

Record Command := mkCommand {
  action : Action;
  payload : option dict
}.

(** [cmd.payload or {}]. *)
Definition payload_or_empty (cmd : Command) : dict :=
  match payload cmd with
  | Some d => d
  | None => []
  end.

Inductive exn := TypeError | ValueError | OverflowError.

(** What Python's [float(s)] returns on a [str]; [None] is [ValueError].
    The builtin is not part of this program: it is a parameter. *)
Variable float_of_str : string -> option num.

(** The builtin [float(v)]. *)
Definition py_float (v : pyval) : exn + num :=
  match v with
  | PyNone => inl TypeError
  | PyBool b => inr (if b then lit 1 else lit 0)
  | PyInt z =>
      match of_int z with
      | Some x => inr x
      | None => inl OverflowError
      end
  | PyFloat x => inr x
  | PyStr s =>
      match float_of_str s with
      | Some x => inr x
      | None => inl ValueError
      end
  | PyList _ => inl TypeError
  | PyDict _ => inl TypeError
  end.

(** [want == "OPEN"]. *)
Definition is_OPEN (want : option pyval) : bool :=
  match want with
  | Some (PyStr s) => String.eqb s "OPEN"
  | _ => false
  end.

(** The builtins [min(a, b)] and [max(a, b)]: the first argument is
    kept unless the second is strictly smaller (greater). *)
Definition py_min (a b : num) : num := if b <? a then b else a.
Definition py_max (a b : num) : num := if b >? a then b else a.

(** ** The command processor *)

(** The loop of [load_from_warehouse]: the list with its first QUEUED
    parcel marked LOADED, and that parcel's weight; [None] when the loop
    ends without a [break]. *)
Fixpoint load_first_queued (ps : list Parcel) : option (list Parcel * num) :=
  match ps with
  | [] => None
  | p :: rest =>
      match status p with
      | QUEUED =>
          Some (mkParcel (id p) (weight_kg p) (destination_km p) LOADED :: rest,
                weight_kg p)
      | _ =>
          match load_first_queued rest with
          | Some (rest', kg) => Some (p :: rest', kg)
          | None => None
          end
      end
  end.

(** How a call of [send_command] ends: it returns [{"ok": True}], or an
    exception leaves the handler; either way with the globals as shown. *)
Inductive Outcome :=
| Ok (w : World)
| Raised (e : exn) (w : World).

Definition world_of (o : Outcome) : World :=
  match o with
  | Ok w => w
  | Raised _ w => w
  end.

Definition send_command (cmd : Command) (w : World) : Outcome :=
  let s := STATE w in
  match action cmd with
  | start =>
      if negb (doors_open (doors s))
      then Ok (with_STATE (set_cabin MOVING (set_running true s)) w)
      else Ok w
  | stop =>
      Ok (with_STATE (set_cabin IDLE (set_running false s)) w)
  | emergency_stop =>
      Ok (mkWorld (set_cabin ERROR (set_running false s))
                  (SETPOINT_MS w) (PARCELS w) (S (pending_clear_error w)))
  | set_doors =>
      let want := dict_get "state" (payload_or_empty cmd) in
      if nabs (speed_ms s) <? lit 0.1
      then Ok (with_STATE (set_doors_field (if is_OPEN want then OPEN else CLOSED) s) w)
      else Ok w
  | set_target =>
      match py_float (dict_get_default "km" (PyInt 0) (payload_or_empty cmd)) with
      | inl e => Raised e w
      | inr km =>
          Ok (with_STATE (set_target_km (py_max (lit 0) (py_min (lit 100) km)) s) w)
      end
  | set_speed =>
      match py_float (dict_get_default "ms" (PyFloat (SETPOINT_MS w))
                                       (payload_or_empty cmd)) with
      | inl e => Raised e w
      | inr ms =>
          Ok (mkWorld s (py_max (lit 0) (py_min (lit 200) ms))
                      (PARCELS w) (pending_clear_error w))
      end
  | load_from_warehouse =>
      match load_first_queued (PARCELS w) with
      | Some (ps, kg) =>
          Ok (mkWorld (set_payload_kg (payload_kg s + kg) s)
                      (SETPOINT_MS w) ps (pending_clear_error w))
      | None => Ok w
      end
  end.

(** ** The error recovery timer *)

(** The body of [_clear_error] once its sleep is over. *)
Definition clear_error (w : World) : World :=
  if cabin_eqb (cabin (STATE w)) ERROR
  then with_STATE (set_cabin IDLE (STATE w)) w
  else w.

(** ** The warehouse *)

(** [PARCELS.insert(0, p.model_dump())]. *)
Definition add_parcel (p : Parcel) (w : World) : World :=
  mkWorld (STATE w) (SETPOINT_MS w) (p :: PARCELS w) (pending_clear_error w).

(** ** Runs *)

(** What the event loop may execute next: a request of either endpoint,
    an iteration of [sim_loop], or a [_clear_error] task whose sleep is
    over.  Each runs to completion before the next one starts. *)
Inductive Event :=
| Cmd (c : Command)
| Tick
| ClearError
| AddParcel (p : Parcel).

(** [None]: the event cannot happen (no [_clear_error] task is pending). *)
Definition step (e : Event) (w : World) : option World :=
  match e with
  | Cmd c => Some (world_of (send_command c w))
  | Tick => Some (tick w)
  | ClearError =>
      match pending_clear_error w with
      | O => None
      | S n =>
          Some (clear_error (mkWorld (STATE w) (SETPOINT_MS w) (PARCELS w) n))
      end
  | AddParcel p => Some (add_parcel p w)
  end.

Fixpoint run (es : list Event) (w : World) : option World :=
  match es with
  | [] => Some w
  | e :: es' =>
      match step e w with
      | Some w' => run es' w'
      | None => None
      end
  end.

Definition Reachable (w : World) : Prop :=
  exists es, run es World0 = Some w.

End Model.

Arguments State : clear implicits.
Arguments Parcel : clear implicits.
Arguments World : clear implicits.
Arguments pyval : clear implicits.
Arguments dict : clear implicits.
Arguments Command : clear implicits.
Arguments Outcome : clear implicits.
Arguments Event : clear implicits.

(** ** Definitions used by the statements *)

Section Statements.
Context {num : Type} {N : Num num}.
Local Open Scope num_scope.
Local Abbreviation State := (State num).
Local Abbreviation Parcel := (Parcel num).
Local Abbreviation World := (World num).
Local Abbreviation pyval := (pyval num).
Local Abbreviation dict := (dict num).
Local Abbreviation Command := (Command num).

(** The payload value a command hands to [float], if it does so. *)
Definition converted_value (cmd : Command) (w : World) : option pyval :=
  match action cmd with
  | set_target => Some (dict_get_default "km" (PyInt 0) (payload_or_empty cmd))
  | set_speed =>
      Some (dict_get_default "ms" (PyFloat (SETPOINT_MS w)) (payload_or_empty cmd))
  | _ => None
  end.

(** [clamp(x, lo, hi)] of the specification: the nearest bound when [x]
    is out of range, [x] itself otherwise. *)
Definition clamp (x lo hi : num) : num :=
  if x <? lo then lo else if hi <? x then hi else x.

(** The bounds the specification lists as the invariant of all
    reachable states. *)
Definition claimed_bounds (w : World) : bool :=
  (lit 0 <=? position_km (STATE w)) && (position_km (STATE w) <=? lit 100) &&
  (lit 0 <=? target_km (STATE w)) && (target_km (STATE w) <=? lit 100) &&
  (lit 0 <=? SETPOINT_MS w) && (SETPOINT_MS w <=? lit 200) &&
  (nabs (speed_ms (STATE w)) <=? SETPOINT_MS w).

(** The same with the speed bounded by the largest setpoint. *)
Definition kept_bounds (w : World) : bool :=
  (lit 0 <=? position_km (STATE w)) && (position_km (STATE w) <=? lit 100) &&
  (lit 0 <=? target_km (STATE w)) && (target_km (STATE w) <=? lit 100) &&
  (lit 0 <=? SETPOINT_MS w) && (SETPOINT_MS w <=? lit 200) &&
  (nabs (speed_ms (STATE w)) <=? lit 200).

(** The bounds on what the commands store. *)
Definition target_setpoint_bounds (w : World) : bool :=
  (lit 0 <=? target_km (STATE w)) && (target_km (STATE w) <=? lit 100) &&
  (lit 0 <=? SETPOINT_MS w) && (SETPOINT_MS w <=? lit 200).

Definition cmd (a : Action) : Command := mkCommand a None.
Definition cmd_with (a : Action) (k : string) (v : pyval) : Command :=
  mkCommand a (Some [(k, v)]).

End Statements.

(** [n] ticks, checking [P] before each of them and at the end: the last
    state, or [None] if [P] failed on the way. *)
Fixpoint sim_loop_while {num : Type} {N : Num num}
  (P : World num -> bool) (n : nat) (w : World num) : option (World num) :=
  if P w then
    match n with
    | O => Some w
    | S n' => sim_loop_while P n' (tick w)
    end
  else None.

(** ** Concrete runs on binary64 *)

(** The runs below hand no string to [float]; where one must be named,
    [float_of_str] is the function that is never asked. *)
Definition no_strings : string -> option float := fun _ => None.

(** The globals after [set_target] with [{"km": 50}] and then [start],
    sent to the freshly started server. *)
Definition started (float_of_str : string -> option float) : World float :=
  world_of (send_command float_of_str (cmd start)
    (world_of (send_command float_of_str
                 (cmd_with set_target "km" (PyInt 50)) World0))).

(** The cabin is under way and below kilometre 50. *)
Definition under_way_below_50 (w : World float) : bool :=
  running (STATE w) && cabin_eqb (cabin (STATE w)) MOVING &&
  (position_km (STATE w) <? lit 50)%num.

(** The tick after which the cabin moves no more. *)
Definition stall_tick : nat := Z.to_nat 12498.

(** 49.99199999999405, where the cabin comes to rest. *)
Definition stall_position : float := 0x1.8fef9db22cda0p+5%float.

(** The globals after [stall_tick] ticks: the last tick that moved. *)
Definition last_move : World float :=
  mkWorld (mkState stall_position 20 0 CLOSED true 50 MOVING)%float 20%float [] 0.

(** The globals after every later tick. *)
Definition stalled : World float :=
  mkWorld (mkState stall_position 0 0 CLOSED true 50 MOVING)%float 20%float [] 0.

(** A target, a start, one tick, and then a lower setpoint. *)
Definition lowered_setpoint_trace : list (Event float) :=
  [ Cmd (cmd_with set_target "km" (PyInt 50));
    Cmd (cmd start);
    Tick;
    Cmd (cmd_with set_speed "ms" (PyInt 10)) ].

Section ConcreteWorlds.
Local Open Scope float_scope.

(** The cabin one tick after [started]: it moves at 20 m/s. *)
Definition moving_at_20 : World float := tick (started no_strings).

(** A cabin at rest at kilometre 30, its target. *)
Definition arrived_at_30 : World float :=
  mkWorld (mkState 30 0 0 CLOSED false 30 IDLE) 20 [] 0%nat.

(** The globals at the end of [lowered_setpoint_trace]. *)
Definition lowered_setpoint : World float :=
  world_of (send_command no_strings (cmd_with set_speed "ms" (PyInt 10)) moving_at_20).

(** A warehouse whose second parcel is the first QUEUED one. *)
Definition warehouse : World float :=
  mkWorld STATE0 20
    [ mkParcel "a" 5 10 LOADED;
      mkParcel "b" 12.5 40 QUEUED;
      mkParcel "c" 7 40 QUEUED ]
    0%nat.

End ConcreteWorlds.

(** ** The broadcast hub *)

(** A connection, known as Python knows it: by the identity of its
    [WebSocket] object. *)
Definition WebSocket := nat.

Section Hub.
Context {num : Type}.

(** The text of a frame, [json.dumps] of the message, kept as the message
    it encodes. *)
Inductive Frame :=
| Telemetry (data : State num)
| Parcels (data : list (Parcel num)).

(** A frame that [send_text] handed over to a connection. *)
Definition Sent : Type := WebSocket * Frame.

(** [l.remove(x)]: the list without the first [x]; [None] is [ValueError]. *)
Fixpoint list_remove (x : WebSocket) (l : list WebSocket) : option (list WebSocket) :=
  match l with
  | [] => None
  | y :: l' =>
      if Nat.eqb y x then Some l'
      else match list_remove x l' with
           | Some r => Some (y :: r)
           | None => None
           end
  end.

(** [try: CLIENTS.remove(ws)] with [except: pass]. *)
Definition remove_quietly (CLIENTS : list WebSocket) (ws : WebSocket) : list WebSocket :=
  match list_remove ws CLIENTS with
  | Some r => r
  | None => CLIENTS
  end.

(** Whether [ws.send_text] returns ([true]) or raises, at the time of one
    broadcast. *)
Variable delivers : WebSocket -> bool.

(** The first loop of [broadcast] when nothing else runs during its
    awaits: the frames sent, and the list [dead]. *)
Fixpoint send_to_each (text : Frame) (cs : list WebSocket) : list Sent * list WebSocket :=
  match cs with
  | [] => ([], [])
  | ws :: cs' =>
      let (sent, dead) := send_to_each text cs' in
      if delivers ws then ((ws, text) :: sent, dead) else (sent, ws :: dead)
  end.

(** [broadcast(msg)], not interleaved with other tasks: [CLIENTS]
    afterwards and the frames sent. *)
Definition broadcast (msg : Frame) (CLIENTS : list WebSocket)
  : list WebSocket * list Sent :=
  let (sent, dead) := send_to_each msg CLIENTS in
  (fold_left remove_quietly dead CLIENTS, sent).

(** What other tasks may do to [CLIENTS] while a send is awaited:
    [ws_telemetry] registers a connection, or ends and removes its own. *)
Inductive RegistryEvent :=
| Connects (ws : WebSocket)
| Disconnects (ws : WebSocket).

Definition registry_event (CLIENTS : list WebSocket) (e : RegistryEvent)
  : list WebSocket :=
  match e with
  | Connects ws => CLIENTS ++ [ws]
  | Disconnects ws => remove_quietly CLIENTS ws
  end.

(** The first loop of [broadcast] as the list iterator runs it: the
    element at [index] of [CLIENTS] as it is now, then the tasks that
    [during index] schedules while that send is awaited.  [None]: more than
    [fuel] iterations. *)
Fixpoint first_loop (during : nat -> list RegistryEvent) (text : Frame)
  (fuel index : nat) (CLIENTS : list WebSocket)
  (sent : list Sent) (dead : list WebSocket)
  : option (list WebSocket * list Sent * list WebSocket) :=
  match fuel with
  | O => None
  | S fuel' =>
      match nth_error CLIENTS index with
      | None => Some (CLIENTS, sent, dead)
      | Some ws =>
          let CLIENTS' := fold_left registry_event (during index) CLIENTS in
          if delivers ws
          then first_loop during text fuel' (S index) CLIENTS' (sent ++ [(ws, text)]) dead
          else first_loop during text fuel' (S index) CLIENTS' sent (dead ++ [ws])
      end
  end.

(** [broadcast(msg)] with other tasks running during its awaits. *)
Definition broadcast_during (during : nat -> list RegistryEvent) (fuel : nat)
  (msg : Frame) (CLIENTS : list WebSocket) : option (list WebSocket * list Sent) :=
  match first_loop during msg fuel 0 CLIENTS [] [] with
  | Some (CLIENTS', sent, dead) => Some (fold_left remove_quietly dead CLIENTS', sent)
  | None => None
  end.

End Hub.

Arguments Frame : clear implicits.
Arguments Sent : clear implicits.

Section Handlers.
Context {num : Type} {N : Num num}.




(** [ws_telemetry] up to its receive loop: the connection is appended to
    [CLIENTS] and sent the current [STATE].  When that first send raises,
    the handler ends there, before its [try]: [false]. *)
Definition ws_telemetry_open (delivers : WebSocket -> bool) (ws : WebSocket)
  (w : World num) (CLIENTS : list WebSocket)
  : list WebSocket * list (Sent num) * bool :=
  if delivers ws
  then (CLIENTS ++ [ws], [(ws, Telemetry (STATE w))], true)
  else (CLIENTS ++ [ws], [], false).

(** The [finally] of [ws_telemetry], when its receive loop ends. *)
Definition ws_telemetry_close (ws : WebSocket) (CLIENTS : list WebSocket)
  : list WebSocket :=
  remove_quietly CLIENTS ws.

(** The frames of [sent] that went to [ws], as data. *)
Definition frames_to (ws : WebSocket) (sent : list (Sent num)) : list (Frame num) :=
  map snd (filter (fun s => Nat.eqb (fst s) ws) sent).

(** The number of QUEUED parcels. *)
Definition count_queued (ps : list (Parcel num)) : nat :=
  List.length (filter (fun p => match status p with QUEUED => true | _ => false end) ps).

End Handlers.

(** The commands of [cs] sent one after the other; an exception ends its
    own request only. *)
Definition send_commands {num : Type} {N : Num num}
  (float_of_str : string -> option num) (cs : list (Command num)) (w : World num)
  : World num :=
  fold_left (fun w c => world_of (send_command float_of_str c w)) cs w.

(** ** Worlds and registries for the hub and the state machine *)

Section MoreConcreteWorlds.
Local Open Scope float_scope.

(** Three connections, the second of which has gone away. *)
Definition three_clients : list WebSocket := [1; 2; 3]%nat.
Definition second_fails : WebSocket -> bool := fun ws => negb (Nat.eqb ws 2).
Definition all_deliver : WebSocket -> bool := fun _ => true.


(** The telemetry frame of the freshly started server. *)
Definition idle_frame : Frame float := Telemetry STATE0.

(** A cabin that was started and whose doors were opened before the first
    tick: running, with the doors OPEN. *)
Definition open_while_running_trace : list (Event float) :=
  [ Cmd (cmd_with set_target "km" (PyInt 50));
    Cmd (cmd start);
    Cmd (cmd_with set_doors "state" (PyStr "OPEN")) ].

Definition open_while_running : World float :=
  world_of (send_command no_strings (cmd_with set_doors "state" (PyStr "OPEN"))
              (started no_strings)).

End MoreConcreteWorlds.

(** ** Invariants of the reachable states *)

Section Invariants.
Import Float64.

(** The mode and the run flag agree, and ERROR has a recovery pending. *)
Definition mode_coherent {num : Type} (w : World num) : Prop :=
  (running (STATE w) = true <-> cabin (STATE w) = MOVING)
  /\ (cabin (STATE w) = ERROR -> 1 <= pending_clear_error w)%nat.

(** Open doors go with a speed below 0.1. *)
Definition doors_open_slow (w : World float) : Prop :=
  doors (STATE w) = OPEN -> (nabs (speed_ms (STATE w)) <? lit 0.1)%num = true.

(** What [set_speed] stores: [+0.0], or a positive float up to 200. *)
Definition setpoint_stored (x : float) : Prop :=
  (x = 0 \/ ((0 <? x) = true /\ (x <=? 200) = true))%float.

End Invariants.

(** ** Binary64 numbers as integers

    Every finite binary64 number is an integer multiple of [2^-1074].
    The properties of the motion are proved on that integer: what the
    operations of [SpecFloat] compute is compared with the rounding of an
    integer to 53 significant bits. *)

Section Binary64Values.
Local Open Scope Z_scope.

(** The exponent of the format for a number whose leading bit has weight
    [2^(e-1)]: [fexp] at precision 53 and [emax = 1024]. *)
Definition fexp64 (e : Z) : Z := Z.max (e - 53) (-1074).

(** [N / 2^k] rounded to the nearest integer, ties to even. *)
Definition rne (N k : Z) : Z :=
  match 2 * (N mod 2 ^ k) ?= 2 ^ k with
  | Lt => N / 2 ^ k
  | Eq => if Z.even (N / 2 ^ k) then N / 2 ^ k else N / 2 ^ k + 1
  | Gt => N / 2 ^ k + 1
  end.

(** The number of low bits a positive [N] loses when it is kept to 53
    significant bits. *)
Definition kexp (N : Z) : Z := Z.max (Z.log2 N - 52) 0.

(** A positive [N] rounded to 53 significant bits. *)
Definition rnd_pos (N : Z) : Z := rne N (kexp N) * 2 ^ kexp N.

(** [2^1024] in units of [2^-1074], where rounding overflows; and the
    integer that stands for infinity. *)
Definition Bv : Z := 2 ^ 2098.
Definition INF : Z := 2 ^ 2100.

Definition sat (v : Z) : Z := if Bv <=? v then INF else v.

(** Rounding to binary64, of an integer in units of [2^-1074]. *)
Definition RND (N : Z) : Z := Z.sgn N * sat (rnd_pos (Z.abs N)).

(** The value of a float in units of [2^-1074]. *)
Definition Zval (x : spec_float) : Z :=
  match x with
  | S754_zero _ => 0
  | S754_infinity s => cond_Zopp s INF
  | S754_nan => 0
  | S754_finite s m e => cond_Zopp s (Zpos m * 2 ^ (e + 1074))
  end.

Definition SFfin (x : spec_float) : bool :=
  match x with
  | S754_zero _ | S754_finite _ _ _ => true
  | _ => false
  end.

Definition SFinf (x : spec_float) : bool :=
  match x with
  | S754_infinity _ => true
  | _ => false
  end.

(** [x] is a number of sign [s]. *)
Definition has_sign (s : bool) (x : spec_float) : Prop :=
  match x with
  | S754_zero s' | S754_infinity s' | S754_finite s' _ _ => s' = s
  | S754_nan => False
  end.

(** The last step of a rounding: the overflow test. *)
Definition finish (s : bool) (q : positive) (e : Z) : spec_float :=
  if e <=? 971 then S754_finite s q e else S754_infinity s.

(** [1.0] and [-1.0]. *)
Definition SF_one : spec_float := S754_finite false 4503599627370496 (-52).
Definition SF_minus_one : spec_float := S754_finite true 4503599627370496 (-52).

Definition val (x : float) : Z := Zval (Prim2SF x).
Definition is_num (x : float) : Prop := Prim2SF x <> S754_nan.
Definition is_fin (x : float) : Prop := SFfin (Prim2SF x) = true.

(** The least integer that [float] refuses: halfway between the largest
    binary64 number and [2^1024], a tie that goes to the even side. *)
Definition first_refused : Z := 2 ^ 1024 - 2 ^ 970.

End Binary64Values.

(** * Properties that hold in every arithmetic *)

Section Structural.
Context {num : Type} {N : Num num}.
Local Open Scope num_scope.
Local Abbreviation State := (State num).
Local Abbreviation Parcel := (Parcel num).
Local Abbreviation World := (World num).
Local Abbreviation pyval := (pyval num).
Local Abbreviation dict := (dict num).
Local Abbreviation Command := (Command num).
Variable float_of_str : string -> option num.

Local Abbreviation send_command := (send_command float_of_str).
Local Abbreviation step := (step float_of_str).

Lemma sim_loop_app (a b : nat) (w : World) :
  sim_loop (a + b) w = sim_loop b (sim_loop a w).
Proof.
  revert w; induction a as [|a IH]; intros w; simpl; [reflexivity | apply IH].
Qed.

(** A tick of a cabin that is not running moves nothing and reports
    IDLE, whatever the mode was. *)
Lemma tick_not_running (w : World) :
  running (STATE w) = false ->
  tick w = with_STATE (set_cabin IDLE (set_speed_ms (lit 0) (STATE w))) w.
Proof.
  intros Hr. unfold tick. rewrite Hr. simpl. rewrite Hr. reflexivity.
Qed.

(** C1 (the code departs from it): after [emergency_stop] the cabin is in
    ERROR with its recovery task pending, and the very next tick of
    [sim_loop] already reports IDLE, with that task still pending: the
    rule [if not running: cabin = IDLE] is not suppressed in ERROR. *)
Theorem tick_overwrites_ERROR (payload : option dict) (w : World) :
  cabin (STATE (world_of (send_command (mkCommand emergency_stop payload) w))) = ERROR
  /\ running (STATE (world_of (send_command (mkCommand emergency_stop payload) w))) = false
  /\ cabin (STATE (tick (world_of (send_command (mkCommand emergency_stop payload) w)))) = IDLE
  /\ pending_clear_error
       (tick (world_of (send_command (mkCommand emergency_stop payload) w)))
     = S (pending_clear_error w).
Proof.
  simpl. repeat split.
Qed.

(** A tick keeps a stopped cabin stopped and does not move it. *)
Lemma tick_not_running_fields (w : World) :
  running (STATE w) = false ->
  running (STATE (tick w)) = false
  /\ position_km (STATE (tick w)) = position_km (STATE w)
  /\ target_km (STATE (tick w)) = target_km (STATE w).
Proof.
  intros Hr. rewrite (tick_not_running w Hr). simpl. auto.
Qed.

(** C9: once the cabin has arrived ([position_km = target_km]) and is not
    running, any number of ticks leaves [position_km] unchanged. *)
Theorem arrived_position_is_fixed (w : World) (n : nat) :
  position_km (STATE w) = target_km (STATE w) ->
  running (STATE w) = false ->
  position_km (STATE (sim_loop n w)) = position_km (STATE w).
Proof.
  revert w. induction n as [|n IH]; intros w Hpos Hrun; simpl.
  - reflexivity.
  - destruct (tick_not_running_fields w Hrun) as (Hr' & Hp' & Ht').
    rewrite IH.
    + exact Hp'.
    + rewrite Hp', Ht'. exact Hpos.
    + exact Hr'.
Qed.




Lemma load_first_queued_none (ps : list Parcel) :
  Forall (fun q => status q <> QUEUED) ps -> load_first_queued ps = None.
Proof.
  intros H. induction H as [|q ps Hq H IH]; simpl.
  - reflexivity.
  - rewrite IH. destruct (status q); try reflexivity. contradiction.
Qed.



End Structural.

(** * Binary64 arithmetic

    What [SpecFloat] computes, on the integers of [Zval]: addition and
    subtraction round the exact result to the nearest number of the format,
    rounding is monotone and leaves the numbers of the format as they are,
    the comparisons order the values, and multiplying by [1.0] or [-1.0] is
    exact. *)

Ltac zcmp :=
  first [ apply Z.compare_eq_iff; lia
        | apply Z.compare_lt_iff; lia
        | apply Z.compare_gt_iff; lia ].

Section Rounding.
Import Float64.
Local Open Scope Z_scope.

(** *** Digits and shifts *)

Lemma digits2_size (m : positive) : digits2_pos m = Pos.size m.
Proof. induction m as [m IH|m IH|]; simpl; congruence. Qed.

Lemma digits2_log2 (m : positive) : Zpos (digits2_pos m) = Z.log2 (Zpos m) + 1.
Proof.
  rewrite digits2_size. destruct m as [m|m|]; simpl; try reflexivity;
    rewrite Pos2Z.inj_succ; lia.
Qed.

Lemma iter_pos_nat {A : Type} (f : A -> A) (p : positive) (x : A) :
  iter_pos f p x = Nat.iter (Pos.to_nat p) f x.
Proof.
  revert x. induction p as [p IH|p IH|]; intros x; cbn [iter_pos].
  - rewrite !IH, Pos2Nat.inj_xI.
    replace (S (2 * Pos.to_nat p))%nat with (Pos.to_nat p + Pos.to_nat p + 1)%nat by lia.
    rewrite !Nat.iter_add. reflexivity.
  - rewrite !IH, Pos2Nat.inj_xO.
    replace (2 * Pos.to_nat p)%nat with (Pos.to_nat p + Pos.to_nat p)%nat by lia.
    rewrite Nat.iter_add. reflexivity.
  - reflexivity.
Qed.

Lemma shr_1_nonneg (m : Z) (r s : bool) :
  0 <= m ->
  shr_1 (Build_shr_record m r s) = Build_shr_record (m / 2) (Z.odd m) (r || s).
Proof.
  intros Hm. rewrite <- Z.div2_div.
  destruct m as [|[p|p|]|p]; try reflexivity. lia.
Qed.

Lemma iter_pos_xO (m d : positive) : Zpos (Pos.iter xO m d) = Zpos m * 2 ^ Zpos d.
Proof.
  induction d as [|d IH] using Pos.peano_ind.
  - simpl. lia.
  - rewrite Pos.iter_succ, Pos2Z.inj_succ, Z.pow_succ_r by lia.
    rewrite Pos2Z.inj_xO, IH. lia.
Qed.

Lemma shr_iter (m : Z) (n : nat) :
  0 <= m ->
  Nat.iter (S n) shr_1 (Build_shr_record m false false)
  = Build_shr_record (m / 2 ^ Z.of_nat (S n)) (Z.odd (m / 2 ^ Z.of_nat n))
                     (negb (m mod 2 ^ Z.of_nat n =? 0)).
Proof.
  intros Hm. induction n as [|n IH].
  - cbn [Nat.iter]. rewrite shr_1_nonneg by exact Hm.
    change (2 ^ Z.of_nat 1) with 2. change (2 ^ Z.of_nat 0) with 1.
    rewrite Z.div_1_r, Z.mod_1_r. reflexivity.
  - rewrite Nat.iter_succ, IH.
    assert (Hp : 0 < 2 ^ Z.of_nat n) by (apply Z.pow_pos_nonneg; lia).
    rewrite shr_1_nonneg by (apply Z.div_pos; [exact Hm | apply Z.pow_pos_nonneg; lia]).
    rewrite Z.div_div by (try apply Z.pow_pos_nonneg; lia).
    assert (E : 2 ^ Z.of_nat (S (S n)) = 2 ^ Z.of_nat (S n) * 2).
    { rewrite (Nat2Z.inj_succ (S n)), Z.pow_succ_r by lia. lia. }
    assert (E1 : 2 ^ Z.of_nat (S n) = 2 ^ Z.of_nat n * 2).
    { rewrite (Nat2Z.inj_succ n), Z.pow_succ_r by lia. lia. }
    rewrite E. f_equal.
    rewrite E1, Z.rem_mul_r by lia.
    rewrite Zmod_odd.
    pose proof (Z.mod_pos_bound m (2 ^ Z.of_nat n) Hp) as Hb.
    destruct (Z.odd (m / 2 ^ Z.of_nat n)); simpl.
    + symmetry. apply negb_true_iff. apply Z.eqb_neq. lia.
    + rewrite Z.mul_0_r, Z.add_0_r. reflexivity.
Qed.

Lemma shr_round (m : Z) (p : positive) (e : Z) :
  0 <= m ->
  snd (shr (Build_shr_record m false false) e (Zpos p)) = e + Zpos p
  /\ round_nearest_even
       (shr_m (fst (shr (Build_shr_record m false false) e (Zpos p))))
       (loc_of_shr_record (fst (shr (Build_shr_record m false false) e (Zpos p))))
     = rne m (Zpos p).
Proof.
  intros Hm. unfold shr. cbn [fst snd]. split; [reflexivity|].
  rewrite iter_pos_nat.
  destruct (Pos2Nat.is_succ p) as [n Hn]. rewrite Hn.
  rewrite shr_iter by exact Hm.
  assert (Ep : Zpos p = Z.of_nat (S n)) by lia.
  rewrite Ep. clear Ep Hn p.
  assert (Hp : 0 < 2 ^ Z.of_nat n) by (apply Z.pow_pos_nonneg; lia).
  assert (E1 : 2 ^ Z.of_nat (S n) = 2 ^ Z.of_nat n * 2).
  { rewrite (Nat2Z.inj_succ n), Z.pow_succ_r by lia. lia. }
  unfold rne. cbn [shr_m loc_of_shr_record].
  set (q := m / 2 ^ Z.of_nat (S n)).
  rewrite E1, Z.rem_mul_r by lia. rewrite Zmod_odd.
  pose proof (Z.mod_pos_bound m (2 ^ Z.of_nat n) Hp) as Hb.
  set (r := m mod 2 ^ Z.of_nat n) in *. set (P := 2 ^ Z.of_nat n) in *.
  destruct (Z.odd (m / P)); destruct (r =? 0) eqn:Er; cbn [negb];
    [apply Z.eqb_eq in Er | apply Z.eqb_neq in Er
    | apply Z.eqb_eq in Er | apply Z.eqb_neq in Er].
  - replace (2 * (r + P * 1) ?= P * 2) with Eq by (symmetry; apply Z.compare_eq_iff; lia).
    reflexivity.
  - replace (2 * (r + P * 1) ?= P * 2) with Gt by (symmetry; apply Z.compare_gt_iff; lia).
    reflexivity.
  - replace (2 * (r + P * 0) ?= P * 2) with Lt by (symmetry; apply Z.compare_lt_iff; lia).
    reflexivity.
  - replace (2 * (r + P * 0) ?= P * 2) with Lt by (symmetry; apply Z.compare_lt_iff; lia).
    reflexivity.
Qed.

(** *** Rounding a mantissa *)

Lemma fexp_fexp64 (e : Z) : fexp prec emax e = fexp64 e.
Proof. reflexivity. Qed.

Lemma pow2_pos (x : Z) : 0 <= x -> 0 < 2 ^ x.
Proof. intros. apply Z.pow_pos_nonneg; lia. Qed.

Lemma rne_scale (m n j : Z) : 0 <= n -> 0 <= j -> rne (m * 2 ^ j) (n + j) = rne m n.
Proof.
  intros Hn Hj. unfold rne.
  pose proof (pow2_pos n Hn). pose proof (pow2_pos j Hj).
  rewrite Z.pow_add_r by lia.
  rewrite Z.div_mul_cancel_r by lia.
  rewrite Z.mul_mod_distr_r by lia.
  replace (2 * (m mod 2 ^ n * 2 ^ j)) with (2 * (m mod 2 ^ n) * 2 ^ j) by ring.
  rewrite <- Zmult_compare_compat_r by lia. reflexivity.
Qed.

Lemma rne_0 (m : Z) : rne m 0 = m.
Proof.
  unfold rne. change (2 ^ 0) with 1. rewrite Z.mod_1_r, Z.div_1_r. reflexivity.
Qed.

Lemma rne_bounds (m n : Z) : 0 <= n -> m / 2 ^ n <= rne m n <= m / 2 ^ n + 1.
Proof.
  intros Hn. unfold rne.
  destruct (2 * (m mod 2 ^ n) ?= 2 ^ n); [destruct (Z.even _)|..]; lia.
Qed.

Lemma log2_digits (m : positive) :
  2 ^ (Zpos (digits2_pos m) - 1) <= Zpos m < 2 ^ Zpos (digits2_pos m).
Proof.
  rewrite digits2_log2.
  replace (Z.log2 (Zpos m) + 1 - 1) with (Z.log2 (Zpos m)) by lia.
  replace (Z.log2 (Zpos m) + 1) with (Z.succ (Z.log2 (Zpos m))) by lia.
  apply Z.log2_spec. lia.
Qed.

Lemma digits_unique (m : positive) (d : Z) :
  2 ^ (d - 1) <= Zpos m < 2 ^ d -> Zpos (digits2_pos m) = d.
Proof.
  intros H. rewrite digits2_log2.
  assert (0 <= d - 1).
  { destruct (Z.le_gt_cases 0 (d - 1)) as [|Hn]; [assumption|].
    exfalso. destruct (Z.eq_dec d 0) as [->|Hd]; [simpl in H; lia|].
    rewrite (Z.pow_neg_r 2 d) in H by lia. lia. }
  replace d with (Z.succ (d - 1)) in H at 2 by lia.
  rewrite (Z.log2_unique (Zpos m) (d - 1)); lia.
Qed.

Lemma aux_no_shift (s : bool) (m : positive) (e : Z) :
  fexp64 (Zpos (digits2_pos m) + e) = e ->
  binary_round_aux prec emax s (Zpos m) e loc_Exact = finish s m e.
Proof.
  intros Hc. unfold binary_round_aux, shr_fexp. cbn [Zdigits2 shr_record_of_loc].
  rewrite fexp_fexp64, Hc, Z.sub_diag. cbn [shr].
  cbn [shr_m loc_of_shr_record round_nearest_even Zdigits2 shr_record_of_loc].
  rewrite fexp_fexp64, Hc, Z.sub_diag. cbn [shr shr_m]. reflexivity.
Qed.

Lemma pow2_52 : 2 ^ 52 = 4503599627370496. Proof. reflexivity. Qed.
Lemma pow2_53 : 2 ^ 53 = 9007199254740992. Proof. reflexivity. Qed.

Lemma rne_digits (m p : positive) :
  Zpos (digits2_pos m) = 53 + Zpos p ->
  2 ^ 52 <= rne (Zpos m) (Zpos p) <= 2 ^ 53.
Proof.
  intros Hd. pose proof (log2_digits m) as Hm. rewrite Hd in Hm.
  pose proof (rne_bounds (Zpos m) (Zpos p) ltac:(lia)) as Hb.
  assert (Hp : 0 < 2 ^ Zpos p) by (apply pow2_pos; lia).
  replace (53 + Zpos p - 1) with (52 + Zpos p) in Hm by lia.
  rewrite !Z.pow_add_r in Hm by lia.
  assert (2 ^ 52 <= Zpos m / 2 ^ Zpos p).
  { apply Z.div_le_lower_bound; lia. }
  assert (Zpos m / 2 ^ Zpos p < 2 ^ 53).
  { apply Z.div_lt_upper_bound; lia. }
  lia.
Qed.

Lemma aux_shift (s : bool) (m : positive) (e : Z) (p : positive) :
  fexp64 (Zpos (digits2_pos m) + e) - e = Zpos p ->
  -1074 <= e ->
  binary_round_aux prec emax s (Zpos m) e loc_Exact
  = if rne (Zpos m) (Zpos p) =? 2 ^ 53
    then finish s 4503599627370496 (e + Zpos p + 1)
    else finish s (Z.to_pos (rne (Zpos m) (Zpos p))) (e + Zpos p).
Proof.
  intros Hn He.
  assert (Hd : Zpos (digits2_pos m) = 53 + Zpos p) by (unfold fexp64 in Hn; lia).
  pose proof (rne_digits m p Hd) as Hq.
  unfold binary_round_aux, shr_fexp at 1. cbn [Zdigits2 shr_record_of_loc].
  rewrite fexp_fexp64, Hn.
  destruct (shr_round (Zpos m) p e ltac:(lia)) as [He' Hr].
  destruct (shr (Build_shr_record (Zpos m) false false) e (Zpos p)) as [mrs e'].
  cbn [fst snd] in He', Hr. rewrite Hr. subst e'. clear Hr mrs.
  set (q := rne (Zpos m) (Zpos p)) in *.
  destruct (q =? 2 ^ 53) eqn:Eq.
  - apply Z.eqb_eq in Eq. rewrite Eq.
    unfold shr_fexp. rewrite fexp_fexp64.
    change (Zdigits2 (2 ^ 53)) with 54.
    replace (fexp64 (54 + (e + Zpos p)) - (e + Zpos p)) with 1 by (unfold fexp64; lia).
    reflexivity.
  - apply Z.eqb_neq in Eq.
    destruct q as [|qp|qp] eqn:Eqq; try lia.
    assert (Hdq : Zpos (digits2_pos qp) = 53).
    { apply digits_unique. change (53 - 1) with 52. lia. }
    unfold shr_fexp. cbn [Zdigits2 shr_record_of_loc]. rewrite fexp_fexp64, Hdq.
    replace (fexp64 (53 + (e + Zpos p)) - (e + Zpos p)) with 0 by (unfold fexp64; lia).
    reflexivity.
Qed.

Lemma kexp_scaled (m : positive) (e : Z) :
  -1074 <= e ->
  kexp (Zpos m * 2 ^ (e + 1074)) = fexp64 (Zpos (digits2_pos m) + e) + 1074.
Proof.
  intros He. unfold kexp. rewrite Z.log2_mul_pow2 by lia.
  rewrite digits2_log2. unfold fexp64. lia.
Qed.

Lemma rnd_pos_scaled (m : positive) (e n : Z) :
  -1074 <= e -> 0 <= n ->
  fexp64 (Zpos (digits2_pos m) + e) - e = n ->
  rnd_pos (Zpos m * 2 ^ (e + 1074)) = rne (Zpos m) n * 2 ^ (e + n + 1074).
Proof.
  intros He Hn Hf. unfold rnd_pos. rewrite kexp_scaled by exact He.
  replace (fexp64 (Zpos (digits2_pos m) + e) + 1074) with (n + (e + 1074)) by lia.
  rewrite rne_scale by lia. f_equal. f_equal. lia.
Qed.

Lemma Bv_split : Bv = 2 ^ 52 * 2 ^ 2046.
Proof. reflexivity. Qed.

Lemma Bv_split' : Bv = 2 ^ 53 * 2 ^ 2045.
Proof. reflexivity. Qed.

Lemma below_Bv (q e : Z) :
  0 < q < 2 ^ 53 -> -1074 <= e <= 971 -> q * 2 ^ (e + 1074) < Bv.
Proof.
  intros Hq He. rewrite Bv_split'.
  assert (2 ^ (e + 1074) <= 2 ^ 2045) by (apply Z.pow_le_mono_r; lia).
  assert (0 < 2 ^ (e + 1074)) by (apply pow2_pos; lia).
  nia.
Qed.

Lemma above_Bv (q e : Z) :
  2 ^ 52 <= q -> 972 <= e -> Bv <= q * 2 ^ (e + 1074).
Proof.
  intros Hq He. rewrite Bv_split.
  assert (2 ^ 2046 <= 2 ^ (e + 1074)) by (apply Z.pow_le_mono_r; lia).
  assert (0 < 2 ^ 2046) by (apply pow2_pos; lia).
  assert (0 < 2 ^ 52) by (apply pow2_pos; lia).
  nia.
Qed.

Lemma Zval_finish (s : bool) (q : positive) (e : Z) :
  -1074 <= e ->
  (972 <= e -> 2 ^ 52 <= Zpos q) ->
  Zpos q < 2 ^ 53 ->
  Zval (finish s q e) = cond_Zopp s (sat (Zpos q * 2 ^ (e + 1074))).
Proof.
  intros He Hbig Hsmall. unfold finish, sat.
  destruct (e <=? 971) eqn:E.
  - apply Z.leb_le in E.
    pose proof (below_Bv (Zpos q) e ltac:(lia) ltac:(lia)).
    destruct (Bv <=? _) eqn:E2; [apply Z.leb_le in E2; lia | reflexivity].
  - apply Z.leb_gt in E.
    pose proof (above_Bv (Zpos q) e ltac:(lia) ltac:(lia)).
    destruct (Bv <=? _) eqn:E2; [reflexivity | apply Z.leb_gt in E2; lia].
Qed.

Lemma SFinf_finish (s : bool) (q : positive) (e : Z) :
  -1074 <= e ->
  (972 <= e -> 2 ^ 52 <= Zpos q) ->
  Zpos q < 2 ^ 53 ->
  SFinf (finish s q e) = (Bv <=? Zpos q * 2 ^ (e + 1074)).
Proof.
  intros He Hbig Hsmall. unfold finish.
  destruct (e <=? 971) eqn:E.
  - apply Z.leb_le in E.
    pose proof (below_Bv (Zpos q) e ltac:(lia) ltac:(lia)).
    symmetry. apply Z.leb_gt. assumption.
  - apply Z.leb_gt in E.
    pose proof (above_Bv (Zpos q) e ltac:(lia) ltac:(lia)).
    symmetry. apply Z.leb_le. assumption.
Qed.

Lemma valid_finish (s : bool) (q : positive) (e : Z) :
  fexp64 (Zpos (digits2_pos q) + e) = e -> valid_binary (finish s q e) = true.
Proof.
  intros Hc. unfold finish. destruct (e <=? 971) eqn:E; [|reflexivity].
  unfold SpecFloat.valid_binary, bounded, canonical_mantissa.
  rewrite fexp_fexp64, Hc, Z.eqb_refl. exact E.
Qed.

Lemma finish_not_nan (s : bool) (q : positive) (e : Z) : finish s q e <> S754_nan.
Proof. unfold finish. destruct (e <=? 971); discriminate. Qed.

(** The rounding step of every operation, on an exact input. *)
Lemma aux_exact (s : bool) (m : positive) (e : Z) :
  -1074 <= e <= fexp64 (Zpos (digits2_pos m) + e) ->
  binary_round_aux prec emax s (Zpos m) e loc_Exact <> S754_nan
  /\ Zval (binary_round_aux prec emax s (Zpos m) e loc_Exact)
     = cond_Zopp s (sat (rnd_pos (Zpos m * 2 ^ (e + 1074))))
  /\ SFinf (binary_round_aux prec emax s (Zpos m) e loc_Exact)
     = (Bv <=? rnd_pos (Zpos m * 2 ^ (e + 1074)))
  /\ valid_binary (binary_round_aux prec emax s (Zpos m) e loc_Exact) = true.
Proof.
  intros He.
  pose proof (log2_digits m) as Hm.
  destruct (fexp64 (Zpos (digits2_pos m) + e) - e) as [|p|p] eqn:Hn; try lia.
  - assert (Hc : fexp64 (Zpos (digits2_pos m) + e) = e) by lia.
    rewrite (aux_no_shift s m e Hc).
    split; [apply finish_not_nan|].
    rewrite (rnd_pos_scaled m e 0) by lia. rewrite rne_0, Z.add_0_r.
    assert (Hbig : 972 <= e -> 2 ^ 52 <= Zpos m).
    { intros Hbig. unfold fexp64 in Hc.
      assert (Zpos (digits2_pos m) = 53) by lia.
      replace 52 with (Zpos (digits2_pos m) - 1) by lia. lia. }
    assert (Hsmall : Zpos m < 2 ^ 53).
    { unfold fexp64 in Hc.
      assert (Zpos (digits2_pos m) <= 53) by lia.
      assert (2 ^ Zpos (digits2_pos m) <= 2 ^ 53) by (apply Z.pow_le_mono_r; lia).
      lia. }
    split; [apply Zval_finish; solve [assumption | lia]|].
    split; [apply SFinf_finish; solve [assumption | lia] | apply valid_finish; exact Hc].
  - assert (Hd : Zpos (digits2_pos m) = 53 + Zpos p) by (unfold fexp64 in Hn; lia).
    pose proof (rne_digits m p Hd) as Hq.
    rewrite (aux_shift s m e p Hn) by lia.
    rewrite (rnd_pos_scaled m e (Zpos p)) by lia.
    destruct (rne (Zpos m) (Zpos p) =? 2 ^ 53) eqn:Eq.
    + apply Z.eqb_eq in Eq. rewrite Eq.
      split; [apply finish_not_nan|].
      assert (Ev : Zpos 4503599627370496 * 2 ^ (e + Zpos p + 1 + 1074)
                   = 2 ^ 53 * 2 ^ (e + Zpos p + 1074)).
      { replace (e + Zpos p + 1 + 1074) with (1 + (e + Zpos p + 1074)) by lia.
        rewrite (Z.pow_add_r 2 1) by lia. rewrite pow2_53. change (2 ^ 1) with 2. lia. }
      rewrite Zval_finish, SFinf_finish;
        [| lia | rewrite pow2_52; lia | rewrite pow2_53; lia
         | lia | rewrite pow2_52; lia | rewrite pow2_53; lia].
      rewrite Ev. split; [reflexivity|]. split; [reflexivity|].
      apply valid_finish. change (Zpos (digits2_pos 4503599627370496)) with 53.
      unfold fexp64. lia.
    + apply Z.eqb_neq in Eq.
      split; [apply finish_not_nan|].
      destruct (rne (Zpos m) (Zpos p)) as [|qp|qp] eqn:Eqq; try lia.
      cbn [Z.to_pos].
      split; [apply Zval_finish; lia|]. split; [apply SFinf_finish; lia|].
      apply valid_finish.
      assert (Hdq : Zpos (digits2_pos qp) = 53).
      { apply digits_unique. change (53 - 1) with 52. lia. }
      rewrite Hdq. unfold fexp64. lia.
Qed.

Lemma digits_shift (m d : positive) :
  Zpos (digits2_pos (Pos.iter xO m d)) = Zpos (digits2_pos m) + Zpos d.
Proof.
  rewrite !digits2_log2, iter_pos_xO, Z.log2_mul_pow2 by lia. lia.
Qed.

Lemma binary_round_val (s : bool) (m : positive) (e : Z) :
  -1074 <= e ->
  binary_round prec emax s m e <> S754_nan
  /\ Zval (binary_round prec emax s m e)
     = cond_Zopp s (sat (rnd_pos (Zpos m * 2 ^ (e + 1074))))
  /\ SFinf (binary_round prec emax s m e)
     = (Bv <=? rnd_pos (Zpos m * 2 ^ (e + 1074)))
  /\ valid_binary (binary_round prec emax s m e) = true.
Proof.
  intros He. unfold binary_round, shl_align. rewrite fexp_fexp64.
  destruct (fexp64 (Zpos (digits2_pos m) + e) - e) as [|p|p] eqn:Hn.
  - apply aux_exact. lia.
  - apply aux_exact. lia.
  - assert (Hf : fexp64 (Zpos (digits2_pos m) + e) = e - Zpos p) by lia.
    assert (Hlo : -1074 <= e - Zpos p) by (unfold fexp64 in Hf; lia).
    destruct (aux_exact s (Pos.iter xO m p) (fexp64 (Zpos (digits2_pos m) + e)))
      as (H1 & H2 & H3 & H4).
    { rewrite digits_shift, Hf.
      replace (Zpos (digits2_pos m) + Zpos p + (e - Zpos p))
        with (Zpos (digits2_pos m) + e) by lia.
      lia. }
    assert (Ev : Zpos (Pos.iter xO m p) * 2 ^ (fexp64 (Zpos (digits2_pos m) + e) + 1074)
                 = Zpos m * 2 ^ (e + 1074)).
    { rewrite iter_pos_xO, Hf, <- Z.mul_assoc, <- Z.pow_add_r by lia.
      f_equal. f_equal. lia. }
    rewrite Ev in H2, H3. auto.
Qed.

Lemma RND_pos (N : Z) : 0 < N -> RND N = sat (rnd_pos N).
Proof.
  intros H. unfold RND. rewrite Z.sgn_pos, Z.abs_eq by lia. lia.
Qed.

Lemma RND_neg (N : Z) : N < 0 -> RND N = - sat (rnd_pos (- N)).
Proof.
  intros H. unfold RND. rewrite Z.sgn_neg, Z.abs_neq by lia. lia.
Qed.

Lemma RND_0 : RND 0 = 0.
Proof. reflexivity. Qed.

Lemma RND_opp (N : Z) : RND (- N) = - RND N.
Proof.
  unfold RND. rewrite Z.sgn_opp, Z.abs_opp. lia.
Qed.

Lemma binary_normalize_val (M e : Z) (sz : bool) :
  -1074 <= e ->
  binary_normalize prec emax M e sz <> S754_nan
  /\ Zval (binary_normalize prec emax M e sz) = RND (M * 2 ^ (e + 1074))
  /\ SFinf (binary_normalize prec emax M e sz)
     = (Bv <=? rnd_pos (Z.abs M * 2 ^ (e + 1074)))
  /\ valid_binary (binary_normalize prec emax M e sz) = true.
Proof.
  intros He. assert (Hp : 0 < 2 ^ (e + 1074)) by (apply pow2_pos; lia).
  destruct M as [|p|p]; cbn [binary_normalize Z.abs].
  - split; [discriminate | repeat split].
  - destruct (binary_round_val false p e He) as (H1 & H2 & H3 & H4).
    split; [exact H1|]. split; [|split; [exact H3 | exact H4]].
    rewrite H2, RND_pos by lia. reflexivity.
  - destruct (binary_round_val true p e He) as (H1 & H2 & H3 & H4).
    split; [exact H1|]. split; [|split; [exact H3 | exact H4]].
    rewrite H2, RND_neg by lia. cbn [cond_Zopp].
    f_equal. f_equal. f_equal. lia.
Qed.

Lemma shl_align_fst (m : positive) (e e' : Z) :
  e' <= e -> Zpos (fst (shl_align m e e')) = Zpos m * 2 ^ (e - e').
Proof.
  intros H. unfold shl_align.
  destruct (e' - e) as [|p|p] eqn:E; cbn [fst]; try lia.
  - replace (e - e') with 0 by lia. lia.
  - rewrite iter_pos_xO. f_equal. f_equal. lia.
Qed.

Lemma scaled_split (m : positive) (e ez : Z) :
  -1074 <= ez <= e ->
  Zpos m * 2 ^ (e - ez) * 2 ^ (ez + 1074) = Zpos m * 2 ^ (e + 1074).
Proof.
  intros H. rewrite <- Z.mul_assoc, <- Z.pow_add_r by lia. f_equal. f_equal. lia.
Qed.

Lemma cond_Zopp_mul (s : bool) (a b : Z) : cond_Zopp s a * b = cond_Zopp s (a * b).
Proof. destruct s; simpl; lia. Qed.

(** Addition and subtraction of two finite numbers round the exact result. *)
Lemma SFadd_finite (sx sy : bool) (mx my : positive) (ex ey : Z) :
  -1074 <= ex -> -1074 <= ey ->
  SFadd prec emax (S754_finite sx mx ex) (S754_finite sy my ey) <> S754_nan
  /\ Zval (SFadd prec emax (S754_finite sx mx ex) (S754_finite sy my ey))
     = RND (Zval (S754_finite sx mx ex) + Zval (S754_finite sy my ey)).
Proof.
  intros Hx Hy. cbn [SFadd].
  destruct (binary_normalize_val
    (cond_Zopp sx (Zpos (fst (shl_align mx ex (Z.min ex ey))))
     + cond_Zopp sy (Zpos (fst (shl_align my ey (Z.min ex ey)))))
    (Z.min ex ey) false ltac:(lia)) as (H1 & H2 & _).
  split; [exact H1|]. rewrite H2. f_equal.
  rewrite !shl_align_fst by lia.
  rewrite Z.mul_add_distr_r, !cond_Zopp_mul, !scaled_split by lia. reflexivity.
Qed.

Lemma SFsub_finite (sx sy : bool) (mx my : positive) (ex ey : Z) :
  -1074 <= ex -> -1074 <= ey ->
  SFsub prec emax (S754_finite sx mx ex) (S754_finite sy my ey) <> S754_nan
  /\ Zval (SFsub prec emax (S754_finite sx mx ex) (S754_finite sy my ey))
     = RND (Zval (S754_finite sx mx ex) - Zval (S754_finite sy my ey)).
Proof.
  intros Hx Hy. cbn [SFsub].
  destruct (binary_normalize_val
    (cond_Zopp sx (Zpos (fst (shl_align mx ex (Z.min ex ey))))
     - cond_Zopp sy (Zpos (fst (shl_align my ey (Z.min ex ey)))))
    (Z.min ex ey) false ltac:(lia)) as (H1 & H2 & _).
  split; [exact H1|]. rewrite H2. f_equal.
  rewrite !shl_align_fst by lia.
  rewrite Z.mul_sub_distr_r, !cond_Zopp_mul, !scaled_split by lia. reflexivity.
Qed.

(** *** Rounding is monotone *)

Lemma rne_mono (a b k : Z) : 0 <= k -> 0 <= a <= b -> rne a k <= rne b k.
Proof.
  intros Hk Hab.
  assert (HP : 0 < 2 ^ k) by (apply pow2_pos; exact Hk).
  pose proof (Z.div_le_mono a b (2 ^ k) HP ltac:(lia)) as Hq.
  pose proof (rne_bounds a k Hk) as Ha. pose proof (rne_bounds b k Hk) as Hb.
  destruct (Z.eq_dec (a / 2 ^ k) (b / 2 ^ k)) as [E|E]; [|lia].
  pose proof (Z.div_mod a (2 ^ k) ltac:(lia)) as Da.
  pose proof (Z.div_mod b (2 ^ k) ltac:(lia)) as Db.
  assert (Hr : a mod 2 ^ k <= b mod 2 ^ k) by (rewrite E in Da; lia).
  clear Ha Hb Da Db. unfold rne. rewrite E.
  destruct (Z.compare_spec (2 * (a mod 2 ^ k)) (2 ^ k));
    destruct (Z.compare_spec (2 * (b mod 2 ^ k)) (2 ^ k));
    destruct (Z.even (b / 2 ^ k)); lia.
Qed.

Lemma kexp_nonneg (N : Z) : 0 <= kexp N.
Proof. unfold kexp. lia. Qed.

Lemma kexp_mono (a b : Z) : a <= b -> kexp a <= kexp b.
Proof.
  intros H. unfold kexp. pose proof (Z.log2_le_mono a b H). lia.
Qed.

Lemma rnd_pos_upper (a : Z) : 0 < a -> rnd_pos a <= 2 ^ (53 + kexp a).
Proof.
  intros Ha. unfold rnd_pos.
  pose proof (kexp_nonneg a) as Hk.
  assert (HP : 0 < 2 ^ kexp a) by (apply pow2_pos; exact Hk).
  pose proof (rne_bounds a (kexp a) Hk) as Hb.
  pose proof (Z.log2_spec a Ha) as [_ Hl].
  assert (Hlt : a < 2 ^ (53 + kexp a)).
  { eapply Z.lt_le_trans; [exact Hl|]. apply Z.pow_le_mono_r; unfold kexp; lia. }
  rewrite Z.pow_add_r in * by lia.
  assert (a / 2 ^ kexp a < 2 ^ 53) by (apply Z.div_lt_upper_bound; lia).
  nia.
Qed.

Lemma rnd_pos_lower (b : Z) : 0 < b -> 0 < kexp b -> 2 ^ (52 + kexp b) <= rnd_pos b.
Proof.
  intros Hb Hk. unfold rnd_pos.
  assert (HP : 0 < 2 ^ kexp b) by (apply pow2_pos; lia).
  pose proof (rne_bounds b (kexp b) ltac:(lia)) as Hr.
  pose proof (Z.log2_spec b Hb) as [Hl _].
  assert (El : Z.log2 b = 52 + kexp b) by (unfold kexp in *; lia).
  rewrite El in Hl. rewrite Z.pow_add_r in * by lia.
  assert (2 ^ 52 <= b / 2 ^ kexp b) by (apply Z.div_le_lower_bound; lia).
  nia.
Qed.

Lemma rnd_pos_mono (a b : Z) : 0 < a <= b -> rnd_pos a <= rnd_pos b.
Proof.
  intros Hab.
  pose proof (kexp_mono a b ltac:(lia)) as Hk.
  pose proof (kexp_nonneg a) as Hka.
  destruct (Z.eq_dec (kexp a) (kexp b)) as [E|E].
  - unfold rnd_pos. rewrite E.
    assert (HP : 0 < 2 ^ kexp b) by (apply pow2_pos; lia).
    pose proof (rne_mono a b (kexp b) ltac:(lia) ltac:(lia)). nia.
  - pose proof (rnd_pos_upper a ltac:(lia)) as Hu.
    pose proof (rnd_pos_lower b ltac:(lia) ltac:(lia)) as Hl.
    assert (2 ^ (53 + kexp a) <= 2 ^ (52 + kexp b)) by (apply Z.pow_le_mono_r; lia).
    lia.
Qed.

Lemma rnd_pos_nonneg (a : Z) : 0 <= a -> 0 <= rnd_pos a.
Proof.
  intros Ha. unfold rnd_pos.
  pose proof (kexp_nonneg a) as Hk.
  assert (HP : 0 < 2 ^ kexp a) by (apply pow2_pos; exact Hk).
  pose proof (rne_bounds a (kexp a) Hk) as Hb.
  pose proof (Z.div_pos a (2 ^ kexp a) Ha HP). nia.
Qed.

Lemma rnd_pos_1 : rnd_pos 1 = 1.
Proof. reflexivity. Qed.

Lemma rnd_pos_Bv : rnd_pos Bv = Bv.
Proof. vm_compute. reflexivity. Qed.

Lemma Bv_INF : 0 < Bv < INF.
Proof. split; reflexivity. Qed.

Lemma sat_mono (x y : Z) : x <= y -> sat x <= sat y.
Proof.
  intros H. unfold sat. pose proof Bv_INF.
  destruct (Bv <=? x) eqn:E1; destruct (Bv <=? y) eqn:E2;
    rewrite ?Z.leb_le, ?Z.leb_gt in *; lia.
Qed.

Lemma sat_pos (x : Z) : 0 < x -> 0 < sat x.
Proof.
  intros H. unfold sat. pose proof Bv_INF. destruct (Bv <=? x); lia.
Qed.

Lemma sat_nonneg (x : Z) : 0 <= x -> 0 <= sat x.
Proof.
  intros H. unfold sat. pose proof Bv_INF. destruct (Bv <=? x); lia.
Qed.

Lemma RND_nonneg (N : Z) : 0 <= N -> 0 <= RND N.
Proof.
  intros H. destruct (Z.eq_dec N 0) as [->|Hn]; [rewrite RND_0; lia|].
  rewrite RND_pos by lia. apply sat_nonneg, rnd_pos_nonneg. lia.
Qed.

Lemma RND_positive (N : Z) : 0 < N -> 0 < RND N.
Proof.
  intros H. rewrite RND_pos by lia. apply sat_pos.
  pose proof (rnd_pos_mono 1 N ltac:(lia)). rewrite rnd_pos_1 in *. lia.
Qed.

(** Rounding is monotone. *)
Lemma RND_mono (a b : Z) : a <= b -> RND a <= RND b.
Proof.
  intros H.
  destruct (Z.lt_trichotomy a 0) as [Ha|[->|Ha]];
    destruct (Z.lt_trichotomy b 0) as [Hb|[->|Hb]]; try lia.
  - rewrite !RND_neg by lia.
    pose proof (rnd_pos_mono (- b) (- a) ltac:(lia)) as Hm.
    apply sat_mono in Hm. lia.
  - rewrite RND_0. pose proof (RND_positive (- a) ltac:(lia)).
    rewrite RND_opp in *. lia.
  - pose proof (RND_positive (- a) ltac:(lia)). pose proof (RND_positive b Hb).
    rewrite RND_opp in *. lia.
  - rewrite RND_0. pose proof (RND_positive b Hb). lia.
  - rewrite !RND_pos by lia. apply sat_mono, rnd_pos_mono. lia.
Qed.

Lemma RND_big (N : Z) : Bv <= N -> RND N = INF.
Proof.
  intros H. pose proof Bv_INF. rewrite RND_pos by lia.
  pose proof (rnd_pos_mono Bv N ltac:(lia)) as Hm. rewrite rnd_pos_Bv in Hm.
  unfold sat. destruct (Bv <=? rnd_pos N) eqn:E; [reflexivity|].
  apply Z.leb_gt in E. lia.
Qed.

(** *** The numbers of the format *)

Lemma valid_finite (s : bool) (m : positive) (e : Z) :
  valid_binary (S754_finite s m e) = true ->
  -1074 <= e <= 971 /\ Zpos m < 2 ^ 53 /\ (-1074 < e -> 2 ^ 52 <= Zpos m)
  /\ fexp64 (Zpos (digits2_pos m) + e) = e.
Proof.
  unfold SpecFloat.valid_binary, bounded, canonical_mantissa. rewrite fexp_fexp64.
  intros H. apply andb_prop in H. destruct H as [Hc He].
  apply Z.eqb_eq in Hc. apply Z.leb_le in He. change (emax - prec) with 971 in He.
  pose proof (log2_digits m) as Hm.
  assert (Hd : Zpos (digits2_pos m) <= 53) by (unfold fexp64 in Hc; lia).
  assert (2 ^ Zpos (digits2_pos m) <= 2 ^ 53) by (apply Z.pow_le_mono_r; lia).
  repeat split; try lia.
  - unfold fexp64 in Hc. lia.
  - intros Hlo. assert (Zpos (digits2_pos m) = 53) by (unfold fexp64 in Hc; lia).
    replace 52 with (Zpos (digits2_pos m) - 1) by lia. lia.
Qed.

Lemma scaled_bound (s : bool) (m : positive) (e : Z) :
  valid_binary (S754_finite s m e) = true ->
  0 < Zpos m * 2 ^ (e + 1074) < Bv.
Proof.
  intros H. destruct (valid_finite s m e H) as (He & Hm & _).
  split.
  - assert (0 < 2 ^ (e + 1074)) by (apply pow2_pos; lia). lia.
  - apply below_Bv; lia.
Qed.

Lemma rnd_pos_scaled_valid (s : bool) (m : positive) (e : Z) :
  valid_binary (S754_finite s m e) = true ->
  rnd_pos (Zpos m * 2 ^ (e + 1074)) = Zpos m * 2 ^ (e + 1074).
Proof.
  intros H. destruct (valid_finite s m e H) as (He & Hm & _ & Hc).
  rewrite (rnd_pos_scaled m e 0) by lia. rewrite rne_0, Z.add_0_r. reflexivity.
Qed.

Lemma sat_small (v : Z) : v < Bv -> sat v = v.
Proof.
  intros H. unfold sat. destruct (Bv <=? v) eqn:E; [apply Z.leb_le in E; lia | reflexivity].
Qed.

Lemma RND_INF : RND INF = INF.
Proof. apply RND_big. pose proof Bv_INF. lia. Qed.

(** The value of a float is a fixed point of rounding. *)
Lemma RND_Zval (x : spec_float) :
  valid_binary x = true -> RND (Zval x) = Zval x.
Proof.
  intros H. destruct x as [s|s| |s m e]; cbn [Zval]; try reflexivity.
  - destruct s; cbn [cond_Zopp]; rewrite ?RND_opp, RND_INF; reflexivity.
  - pose proof (scaled_bound s m e H) as Hb.
    pose proof (rnd_pos_scaled_valid s m e H) as Hr.
    destruct s; cbn [cond_Zopp]; rewrite ?RND_opp, RND_pos by lia;
      rewrite Hr, sat_small by lia; reflexivity.
Qed.

Lemma Zval_fin_bound (x : spec_float) :
  valid_binary x = true -> SFfin x = true -> - Bv < Zval x < Bv.
Proof.
  intros H Hf. pose proof Bv_INF.
  destruct x as [s|s| |s m e]; cbn [Zval]; try discriminate; [lia|].
  pose proof (scaled_bound s m e H). destruct s; cbn [cond_Zopp]; lia.
Qed.

Lemma finite_lt (s1 s2 : bool) (m1 m2 : positive) (e1 e2 : Z) :
  valid_binary (S754_finite s1 m1 e1) = true ->
  valid_binary (S754_finite s2 m2 e2) = true ->
  e1 < e2 ->
  Zpos m1 * 2 ^ (e1 + 1074) < Zpos m2 * 2 ^ (e2 + 1074).
Proof.
  intros H1 H2 He.
  destruct (valid_finite _ _ _ H1) as (Hb1 & Hm1 & _).
  destruct (valid_finite _ _ _ H2) as (Hb2 & _ & Hm2 & _).
  specialize (Hm2 ltac:(lia)).
  assert (Hp : 0 < 2 ^ (e1 + 1074)) by (apply pow2_pos; lia).
  assert (Hq : 2 * 2 ^ (e1 + 1074) <= 2 ^ (e2 + 1074)).
  { rewrite <- Z.pow_succ_r by lia. apply Z.pow_le_mono_r; lia. }
  rewrite pow2_52 in Hm2. rewrite pow2_53 in Hm1. nia.
Qed.

(** [SFcompare] orders valid floats by their values. *)
Lemma SFcompare_Zval (x y : spec_float) :
  valid_binary x = true -> valid_binary y = true ->
  x <> S754_nan -> y <> S754_nan ->
  SFcompare x y = Some (Zval x ?= Zval y).
Proof.
  intros Hx Hy Nx Ny. pose proof Bv_INF as HB.
  destruct x as [sx|sx| |sx mx ex]; [| | congruence |];
    destruct y as [sy|sy| |sy my ey]; try congruence;
    try pose proof (scaled_bound _ _ _ Hx) as Bx;
    try pose proof (scaled_bound _ _ _ Hy) as By;
    cbn [SFcompare Zval].
  - reflexivity.
  - destruct sy; cbn [cond_Zopp]; f_equal; symmetry; zcmp.
  - destruct sy; cbn [cond_Zopp]; f_equal; symmetry; zcmp.
  - destruct sx; cbn [cond_Zopp]; f_equal; symmetry; zcmp.
  - destruct sx, sy; cbn [cond_Zopp]; f_equal; symmetry; zcmp.
  - destruct sx, sy; cbn [cond_Zopp]; f_equal; symmetry; zcmp.
  - destruct sx; cbn [cond_Zopp]; f_equal; symmetry; zcmp.
  - destruct sx, sy; cbn [cond_Zopp]; f_equal; symmetry; zcmp.
  - destruct sx, sy; cbn [cond_Zopp]; f_equal;
      try (symmetry; zcmp).
    + rewrite Z.compare_opp.
      destruct (Z.compare_spec ex ey) as [E|E|E].
      * subst ey. assert (0 < 2 ^ (ex + 1074)) by (apply pow2_pos;
          destruct (valid_finite _ _ _ Hx); lia).
        rewrite <- Zmult_compare_compat_r by lia.
        change (Zpos my ?= Zpos mx) with (Pos.compare my mx).
        rewrite (Pos.compare_antisym mx my). reflexivity.
      * pose proof (finite_lt _ _ _ _ _ _ Hx Hy E).
        symmetry. apply Z.compare_gt_iff. lia.
      * pose proof (finite_lt _ _ _ _ _ _ Hy Hx E).
        symmetry. apply Z.compare_lt_iff. lia.
    + destruct (Z.compare_spec ex ey) as [E|E|E].
      * subst ey. assert (0 < 2 ^ (ex + 1074)) by (apply pow2_pos;
          destruct (valid_finite _ _ _ Hx); lia).
        rewrite <- Zmult_compare_compat_r by lia. reflexivity.
      * pose proof (finite_lt _ _ _ _ _ _ Hx Hy E).
        symmetry. apply Z.compare_lt_iff. lia.
      * pose proof (finite_lt _ _ _ _ _ _ Hy Hx E).
        symmetry. apply Z.compare_gt_iff. lia.
Qed.

(** *** Addition and subtraction *)

Lemma INF_Bv : INF = 4 * Bv.
Proof. reflexivity. Qed.

Lemma RND_near_INF (v : Z) : - Bv < v < Bv -> RND (v + INF) = INF /\ RND (v - INF) = - INF.
Proof.
  intros H. pose proof Bv_INF. pose proof INF_Bv. split.
  - apply RND_big. lia.
  - replace (v - INF) with (- (INF - v)) by lia. rewrite RND_opp, RND_big; lia.
Qed.

Lemma SFadd_val (x y : spec_float) :
  valid_binary x = true -> valid_binary y = true ->
  SFfin x = true -> y <> S754_nan ->
  SFadd prec emax x y <> S754_nan
  /\ Zval (SFadd prec emax x y) = RND (Zval x + Zval y).
Proof.
  intros Hx Hy Fx Ny.
  destruct x as [sx|sx| |sx mx ex]; try discriminate;
    destruct y as [sy|sy| |sy my ey]; try congruence.
  - split; [destruct sx, sy; discriminate | destruct sx, sy; reflexivity].
  - split; [discriminate|]. cbn [SFadd]. rewrite Z.add_0_l, RND_Zval; auto.
  - split; [discriminate|]. cbn [SFadd]. rewrite Z.add_0_l, RND_Zval; auto.
  - split; [discriminate|]. cbn [SFadd].
    change (Zval (S754_zero sy)) with 0. rewrite Z.add_0_r, RND_Zval; auto.
  - split; [discriminate|]. cbn [SFadd].
    pose proof (Zval_fin_bound _ Hx eq_refl) as Hb.
    destruct (RND_near_INF _ Hb) as [H1 H2].
    set (v := Zval (S754_finite sx mx ex)) in *.
    cbn [Zval]. destruct sy; cbn [cond_Zopp].
    + replace (v + - INF) with (v - INF) by lia. symmetry. exact H2.
    + symmetry. exact H1.
  - apply SFadd_finite.
    + destruct (valid_finite _ _ _ Hx); lia.
    + destruct (valid_finite _ _ _ Hy); lia.
Qed.

Lemma SFsub_val (x y : spec_float) :
  valid_binary x = true -> valid_binary y = true ->
  SFfin x = true -> y <> S754_nan ->
  SFsub prec emax x y <> S754_nan
  /\ Zval (SFsub prec emax x y) = RND (Zval x - Zval y).
Proof.
  intros Hx Hy Fx Ny.
  destruct x as [sx|sx| |sx mx ex]; try discriminate;
    destruct y as [sy|sy| |sy my ey]; try congruence.
  - split; [destruct sx, sy; discriminate | destruct sx, sy; reflexivity].
  - split; [discriminate|]. cbn [SFsub].
    change (Zval (S754_zero sx)) with 0. rewrite Z.sub_0_l.
    rewrite RND_opp, RND_Zval by auto. destruct sy; cbn [Zval cond_Zopp negb]; lia.
  - split; [discriminate|]. cbn [SFsub].
    change (Zval (S754_zero sx)) with 0. rewrite Z.sub_0_l.
    rewrite RND_opp, RND_Zval by auto. destruct sy; cbn [Zval cond_Zopp negb]; lia.
  - split; [discriminate|]. cbn [SFsub].
    change (Zval (S754_zero sy)) with 0. rewrite Z.sub_0_r, RND_Zval; auto.
  - split; [discriminate|]. cbn [SFsub].
    pose proof (Zval_fin_bound _ Hx eq_refl) as Hb.
    destruct (RND_near_INF _ Hb) as [H1 H2].
    set (v := Zval (S754_finite sx mx ex)) in *.
    cbn [Zval]. destruct sy; cbn [cond_Zopp negb].
    + replace (v - - INF) with (v + INF) by lia. symmetry. exact H1.
    + symmetry. exact H2.
  - apply SFsub_finite.
    + destruct (valid_finite _ _ _ Hx); lia.
    + destruct (valid_finite _ _ _ Hy); lia.
Qed.

(** *** Signs *)

Lemma shr_1_keeps_nonneg (mrs : shr_record) : 0 <= shr_m mrs -> 0 <= shr_m (shr_1 mrs).
Proof.
  destruct mrs as [m r s]. cbn [shr_m]. intros H.
  rewrite shr_1_nonneg by exact H. cbn [shr_m]. apply Z.div_pos; lia.
Qed.

Lemma shr_keeps_nonneg (mrs : shr_record) (e n : Z) :
  0 <= shr_m mrs -> 0 <= shr_m (fst (shr mrs e n)).
Proof.
  intros H. unfold shr. destruct n as [|p|p]; cbn [fst]; try exact H.
  rewrite iter_pos_nat. induction (Pos.to_nat p) as [|k IH]; [exact H|].
  cbn [Nat.iter]. apply shr_1_keeps_nonneg. exact IH.
Qed.

Lemma shr_fexp_keeps_nonneg (m e : Z) (l : location) :
  0 <= m -> 0 <= shr_m (fst (shr_fexp prec emax m e l)).
Proof.
  intros H. unfold shr_fexp. apply shr_keeps_nonneg.
  destruct l as [|[| |]]; exact H.
Qed.

Lemma round_nearest_even_nonneg (m : Z) (l : location) :
  0 <= m -> 0 <= round_nearest_even m l.
Proof.
  intros H. destruct l as [|[| |]]; cbn [round_nearest_even]; try lia.
  destruct (Z.even m); lia.
Qed.

(** The rounding step never makes a NaN and keeps the sign it is given. *)
Lemma aux_sign (s : bool) (m e : Z) (l : location) :
  0 <= m -> has_sign s (binary_round_aux prec emax s m e l).
Proof.
  intros H. unfold binary_round_aux.
  pose proof (shr_fexp_keeps_nonneg m e l H) as H1.
  destruct (shr_fexp prec emax m e l) as [mrs' e']. cbn [fst] in H1.
  pose proof (shr_fexp_keeps_nonneg
    (round_nearest_even (shr_m mrs') (loc_of_shr_record mrs')) e' loc_Exact
    (round_nearest_even_nonneg _ _ H1)) as H2.
  destruct (shr_fexp prec emax _ e' loc_Exact) as [mrs'' e'']. cbn [fst] in H2.
  destruct (shr_m mrs'') as [|q|q]; [reflexivity | | lia].
  destruct (e'' <=? emax - prec); reflexivity.
Qed.

Lemma has_sign_not_nan (s : bool) (x : spec_float) : has_sign s x -> x <> S754_nan.
Proof. destruct x; simpl; congruence. Qed.

Lemma has_sign_false_nonneg (x : spec_float) : has_sign false x -> 0 <= Zval x.
Proof.
  pose proof Bv_INF.
  pose proof (pow2_pos 0 ltac:(lia)) as _.
  destruct x as [s|s| |s m e]; cbn [has_sign Zval]; intros Hs; subst; cbn [cond_Zopp]; try lia;
    try contradiction.
Qed.

Lemma SFmul_sign (sx sy : bool) (x : spec_float) (my : positive) (ey : Z) :
  has_sign sx x ->
  has_sign (xorb sx sy) (SFmul prec emax x (S754_finite sy my ey)).
Proof.
  destruct x as [s|s| |s m e]; cbn [has_sign SFmul]; intros H; subst; try reflexivity;
    try contradiction.
  apply aux_sign. lia.
Qed.

Lemma SFdiv_sign (sx sy : bool) (x : spec_float) (my : positive) (ey : Z) :
  has_sign sx x ->
  has_sign (xorb sx sy) (SFdiv prec emax x (S754_finite sy my ey)).
Proof.
  destruct x as [s|s| |s m e]; cbn [has_sign SFdiv]; intros H; subst; try reflexivity;
    try contradiction.
  unfold SFdiv_core_binary.
  set (m' := match _ with Z0 => Zpos m | Zpos _ => _ | Zneg _ => 0 end).
  assert (Hm : 0 <= m').
  { subst m'. destruct (_ - _ - _); try lia. apply Z.shiftl_nonneg. lia. }
  pose proof (Z.div_pos m' (Zpos my) Hm ltac:(lia)) as Hq.
  unfold Z.div in Hq. destruct (Z.div_eucl m' (Zpos my)) as [q r]. cbn [fst] in Hq.
  apply aux_sign. exact Hq.
Qed.

(** *** Multiplication by one *)

Lemma digits_times_pow52 (m : positive) :
  Zpos (digits2_pos (m * 4503599627370496)) = Zpos (digits2_pos m) + 52.
Proof.
  rewrite !digits2_log2, Pos2Z.inj_mul. rewrite <- pow2_52.
  rewrite Z.log2_mul_pow2 by lia. lia.
Qed.

Lemma aux_times_one (s s' : bool) (m : positive) (e : Z) :
  valid_binary (S754_finite s' m e) = true ->
  binary_round_aux prec emax s (Zpos (m * 4503599627370496)) (e + -52) loc_Exact
  = S754_finite s m e.
Proof.
  intros Hv. destruct (valid_finite _ _ _ Hv) as (He & Hm & _ & Hc).
  unfold binary_round_aux, shr_fexp at 1. cbn [Zdigits2 shr_record_of_loc].
  rewrite fexp_fexp64, digits_times_pow52.
  replace (Zpos (digits2_pos m) + 52 + (e + -52)) with (Zpos (digits2_pos m) + e) by lia.
  rewrite Hc. replace (e - (e + -52)) with 52 by lia.
  destruct (shr_round (Zpos (m * 4503599627370496)) 52 (e + -52) ltac:(lia)) as [He' Hr].
  destruct (shr (Build_shr_record (Zpos (m * 4503599627370496)) false false) (e + -52) 52)
    as [mrs e'].
  cbn [fst snd] in He', Hr. rewrite Hr. subst e'. clear Hr mrs.
  rewrite Pos2Z.inj_mul, <- pow2_52.
  assert (Hr : rne (Zpos m * 2 ^ 52) 52 = Zpos m).
  { exact (eq_trans (rne_scale (Zpos m) 0 52 ltac:(lia) ltac:(lia)) (rne_0 _)). }
  rewrite Hr. clear Hr.
  replace (e + -52 + 52) with e by lia.
  unfold shr_fexp. cbn [Zdigits2 shr_record_of_loc]. rewrite fexp_fexp64, Hc, Z.sub_diag.
  cbn [shr shr_m]. change (emax - prec) with 971.
  destruct (e <=? 971) eqn:E; [reflexivity | apply Z.leb_gt in E; lia].
Qed.

Lemma SFmul_one_r (x : spec_float) :
  valid_binary x = true -> SFmul prec emax x SF_one = x.
Proof.
  intros Hv. destruct x as [s|s| |s m e]; cbn [SFmul SF_one];
    rewrite ?xorb_false_r; try reflexivity.
  apply (aux_times_one s s m e Hv).
Qed.

Lemma SFmul_one_l (x : spec_float) :
  valid_binary x = true -> SFmul prec emax SF_one x = x.
Proof.
  intros Hv. destruct x as [s|s| |s m e]; cbn [SFmul SF_one xorb]; try reflexivity.
  rewrite Pos.mul_comm, Z.add_comm. apply (aux_times_one s s m e Hv).
Qed.

Lemma SFmul_mone_r (x : spec_float) :
  valid_binary x = true -> SFmul prec emax x SF_minus_one = SFopp x.
Proof.
  intros Hv. destruct x as [s|s| |s m e]; cbn [SFmul SF_minus_one SFopp];
    rewrite ?xorb_true_r; try reflexivity.
  apply (aux_times_one (negb s) s m e Hv).
Qed.

Lemma SFmul_mone_l (x : spec_float) :
  valid_binary x = true -> SFmul prec emax SF_minus_one x = SFopp x.
Proof.
  intros Hv. destruct x as [s|s| |s m e]; cbn [SFmul SF_minus_one SFopp xorb]; try reflexivity.
  rewrite Pos.mul_comm, Z.add_comm. apply (aux_times_one (negb s) s m e Hv).
Qed.

(** *** On primitive floats *)

Lemma is_fin_num (x : float) : is_fin x -> is_num x.
Proof. unfold is_fin, is_num. destruct (Prim2SF x); simpl; congruence. Qed.

Lemma leb_val (x y : float) :
  is_num x -> is_num y -> (x <=? y)%float = (val x <=? val y).
Proof.
  intros Hx Hy. rewrite leb_spec. unfold SFleb.
  rewrite SFcompare_Zval by (try apply Prim2SF_valid; assumption).
  unfold Z.leb, val. destruct (_ ?= _); reflexivity.
Qed.

Lemma ltb_val (x y : float) :
  is_num x -> is_num y -> (x <? y)%float = (val x <? val y).
Proof.
  intros Hx Hy. rewrite ltb_spec. unfold SFltb.
  rewrite SFcompare_Zval by (try apply Prim2SF_valid; assumption).
  unfold Z.ltb, val. destruct (_ ?= _); reflexivity.
Qed.

Lemma SFcompare_nan (x y : spec_float) :
  SFcompare x y <> None -> x <> S754_nan /\ y <> S754_nan.
Proof.
  destruct x, y; simpl; intros H; split; congruence.
Qed.

Lemma leb_true (x y : float) :
  (x <=? y)%float = true -> is_num x /\ is_num y /\ val x <= val y.
Proof.
  intros H. assert (Hn : is_num x /\ is_num y).
  { apply SFcompare_nan. rewrite leb_spec in H. unfold SFleb in H.
    destruct (SFcompare _ _); congruence. }
  destruct Hn as [Hx Hy]. rewrite (leb_val x y Hx Hy) in H.
  apply Z.leb_le in H. auto.
Qed.

Lemma ltb_true (x y : float) :
  (x <? y)%float = true -> is_num x /\ is_num y /\ val x < val y.
Proof.
  intros H. assert (Hn : is_num x /\ is_num y).
  { apply SFcompare_nan. rewrite ltb_spec in H. unfold SFltb in H.
    destruct (SFcompare _ _); congruence. }
  destruct Hn as [Hx Hy]. rewrite (ltb_val x y Hx Hy) in H.
  apply Z.ltb_lt in H. auto.
Qed.

Lemma leb_intro (x y : float) :
  is_num x -> is_num y -> val x <= val y -> (x <=? y)%float = true.
Proof. intros Hx Hy H. rewrite leb_val by assumption. apply Z.leb_le. exact H. Qed.

Lemma RND_val (x : float) : RND (val x) = val x.
Proof. apply RND_Zval, Prim2SF_valid. Qed.

Lemma val_fin (x : float) : is_fin x -> - Bv < val x < Bv.
Proof. intros H. apply Zval_fin_bound; [apply Prim2SF_valid | exact H]. Qed.

Lemma fin_of_val (x : float) : is_num x -> - Bv < val x < Bv -> is_fin x.
Proof.
  unfold is_num, is_fin, val. pose proof Bv_INF.
  destruct (Prim2SF x) as [s|s| |s m e]; cbn [Zval SFfin]; intros Hn Hb;
    try reflexivity; try congruence.
  destruct s; cbn [cond_Zopp] in Hb; lia.
Qed.

Lemma add_val (x y : float) :
  is_fin x -> is_num y ->
  is_num (x + y)%float /\ val (x + y)%float = RND (val x + val y).
Proof.
  intros Hx Hy. unfold is_num, val. rewrite add_spec.
  apply SFadd_val; try apply Prim2SF_valid; assumption.
Qed.

Lemma sub_val (x y : float) :
  is_fin x -> is_num y ->
  is_num (x - y)%float /\ val (x - y)%float = RND (val x - val y).
Proof.
  intros Hx Hy. unfold is_num, val. rewrite sub_spec.
  apply SFsub_val; try apply Prim2SF_valid; assumption.
Qed.

Lemma abs_val (x : float) :
  is_num x -> is_num (abs x) /\ val (abs x) = Z.abs (val x).
Proof.
  unfold is_num, val. rewrite abs_spec. pose proof Bv_INF.
  destruct (Prim2SF x) as [s|s| |s m e]; cbn [SFabs Zval]; intros Hn;
    (split; [congruence|]); try reflexivity; try congruence;
    destruct s; cbn [cond_Zopp]; lia.
Qed.

Lemma opp_val (x : float) :
  is_num x -> is_num (- x)%float /\ val (- x)%float = - val x.
Proof.
  unfold is_num, val. rewrite opp_spec.
  destruct (Prim2SF x) as [s|s| |s m e]; cbn [SFopp Zval]; intros Hn;
    (split; [congruence|]); try reflexivity; try congruence;
    destruct s; cbn [cond_Zopp negb]; lia.
Qed.

Lemma float_mul_1_l (x : float) : (1 * x)%float = x.
Proof.
  apply Prim2SF_inj. rewrite mul_spec.
  change (Prim2SF 1) with SF_one. apply SFmul_one_l, Prim2SF_valid.
Qed.

Lemma float_mul_1_r (x : float) : (x * 1)%float = x.
Proof.
  apply Prim2SF_inj. rewrite mul_spec.
  change (Prim2SF 1) with SF_one. apply SFmul_one_r, Prim2SF_valid.
Qed.

Lemma float_mul_m1_l (x : float) : (-1 * x)%float = (- x)%float.
Proof.
  apply Prim2SF_inj. rewrite mul_spec, opp_spec.
  change (Prim2SF (-1)) with SF_minus_one. apply SFmul_mone_l, Prim2SF_valid.
Qed.

Lemma float_mul_m1_r (x : float) : (x * -1)%float = (- x)%float.
Proof.
  apply Prim2SF_inj. rewrite mul_spec, opp_spec.
  change (Prim2SF (-1)) with SF_minus_one. apply SFmul_mone_r, Prim2SF_valid.
Qed.

(** The step [(setpoint / 1000.0) * 0.2] of a setpoint that is not
    negative is not negative, whatever the rounding does. *)
Lemma step_nonneg (s : float) :
  is_num s -> 0 <= val s ->
  is_num (s / 1000 * 0x1.999999999999ap-3)%float
  /\ 0 <= val (s / 1000 * 0x1.999999999999ap-3)%float.
Proof.
  unfold is_num, val. rewrite mul_spec, div_spec. intros Hn Hv.
  change (Prim2SF 1000) with (S754_finite false 8796093022208000 (-43)).
  change (Prim2SF 0x1.999999999999ap-3) with (S754_finite false 7205759403792794 (-55)).
  assert (Hs : exists b, has_sign b (Prim2SF s)
                 /\ (b = false \/ exists s', Prim2SF s = S754_zero s')).
  { pose proof Bv_INF. pose proof (Prim2SF_valid s) as Hval.
    revert Hn Hv Hval.
    destruct (Prim2SF s) as [s'|s'| |s' m e]; cbn [Zval]; intros Hn Hv Hval; try congruence.
    - exists s'. split; [reflexivity | right; eauto].
    - exists s'. split; [reflexivity|]. left. destruct s'; cbn [cond_Zopp] in Hv; [lia | reflexivity].
    - exists s'. split; [reflexivity|]. left.
      pose proof (scaled_bound _ _ _ Hval).
      set (N := Zpos m * 2 ^ (e + 1074)) in *. clearbody N.
      destruct s'; cbn [cond_Zopp] in Hv; [lia | reflexivity]. }
  destruct Hs as (b & Hb & [->|[s' Hz]]).
  - pose proof (SFdiv_sign false false _ 8796093022208000 (-43) Hb) as H1.
    pose proof (SFmul_sign _ false _ 7205759403792794 (-55) H1) as H2.
    cbn [xorb] in H2. split; [apply (has_sign_not_nan _ _ H2) | apply has_sign_false_nonneg, H2].
  - rewrite Hz. unfold SF64mul, SF64div. cbn [SFdiv SFmul Zval]. split; [discriminate | lia].
Qed.

(** *** The integers that [float] refuses *)

(** The least integer that [float] refuses: halfway between the largest
    binary64 and [2^1024], a tie that goes to the even side. *)
Lemma rnd_pos_first_refused : rnd_pos (first_refused * 2 ^ 1074) = Bv.
Proof. vm_compute. reflexivity. Qed.

Lemma rnd_pos_last_accepted : rnd_pos ((first_refused - 1) * 2 ^ 1074) < Bv.
Proof. vm_compute. reflexivity. Qed.

(** [float(n)] on an [int] raises [OverflowError] exactly when
    [|n| >= 2^1024 - 2^970]. *)
Lemma float_of_int_refuses (z : Z) :
  float_of_int z = None <-> first_refused <= Z.abs z.
Proof.
  unfold float_of_int, of_Z.
  destruct (binary_normalize_val z 0 false ltac:(lia)) as (_ & _ & Hi & _).
  change (2 ^ (0 + 1074)) with (2 ^ 1074) in Hi.
  assert (Hn : (match binary_normalize prec emax z 0 false with
                | S754_infinity _ => None
                | sf => Some (SF2Prim sf)
                end = None)
               <-> SFinf (binary_normalize prec emax z 0 false) = true).
  { destruct (binary_normalize prec emax z 0 false); simpl; split; congruence. }
  rewrite Hn, Hi, Z.leb_le. clear Hn Hi.
  assert (HP : 0 < 2 ^ 1074) by (apply pow2_pos; lia).
  assert (H0 : 0 < first_refused) by reflexivity.
  split; intros H.
  - destruct (Z_lt_le_dec (Z.abs z) first_refused) as [Hlt|Hge]; [exfalso | exact Hge].
    pose proof rnd_pos_last_accepted as Hl.
    destruct (Z.eq_dec (Z.abs z) 0) as [E|E].
    + rewrite E in H. vm_compute in H. apply H. reflexivity.
    + pose proof (rnd_pos_mono (Z.abs z * 2 ^ 1074) ((first_refused - 1) * 2 ^ 1074)
                    ltac:(nia)). lia.
  - pose proof (rnd_pos_mono (first_refused * 2 ^ 1074) (Z.abs z * 2 ^ 1074) ltac:(nia)) as Hm.
    rewrite rnd_pos_first_refused in Hm. exact Hm.
Qed.

(** What [float(n)] returns is a number. *)
Lemma float_of_int_num (z : Z) (x : float) :
  float_of_int z = Some x -> (x =? x)%float = true.
Proof.
  unfold float_of_int, of_Z. intros H.
  destruct (binary_normalize_val z 0 false ltac:(lia)) as (Hn & _ & _ & Hv).
  assert (Hx : x = SF2Prim (binary_normalize prec emax z 0 false)).
  { destruct (binary_normalize prec emax z 0 false); congruence. }
  rewrite FloatAxioms.eqb_spec. unfold SFeqb.
  rewrite SFcompare_Zval; try apply Prim2SF_valid.
  - rewrite Z.compare_refl. reflexivity.
  - rewrite Hx, Prim2SF_SF2Prim by exact Hv. exact Hn.
  - rewrite Hx, Prim2SF_SF2Prim by exact Hv. exact Hn.
Qed.

End Rounding.

Section Binary64Order.
Local Open Scope float_scope.

Lemma val_0 : val 0 = 0%Z.
Proof. reflexivity. Qed.

Lemma num_0 : is_num 0.
Proof. discriminate. Qed.

Lemma leb_false (x y : float) :
  is_num x -> is_num y -> (x <=? y) = false -> (val y < val x)%Z.
Proof.
  intros Hx Hy H. rewrite leb_val in H by assumption. apply Z.leb_gt in H. exact H.
Qed.

Lemma fin_between (x lo hi : float) :
  is_fin lo -> is_fin hi -> (lo <=? x) = true -> (x <=? hi) = true -> is_fin x.
Proof.
  intros Hlo Hhi H1 H2.
  apply leb_true in H1. destruct H1 as (_ & Hx & H1).
  apply leb_true in H2. destruct H2 as (_ & _ & H2).
  apply val_fin in Hlo. apply val_fin in Hhi.
  apply fin_of_val; [exact Hx | lia].
Qed.

(** A step towards a target above: the new position is at least the old
    one and, unless the cabin is found arrived, below the target. *)
Lemma step_up (pos tg delta : float) :
  is_fin pos -> is_fin tg -> is_num delta -> (0 <= val delta)%Z ->
  is_num (pos + delta)
  /\ (val pos <= val (pos + delta))%Z
  /\ ((tg - (pos + delta) <=? 0) = false -> (val (pos + delta) < val tg)%Z).
Proof.
  intros Hp Ht Hd Hd0.
  destruct (add_val pos delta Hp Hd) as [Hn Hv].
  split; [exact Hn|]. split.
  - rewrite Hv. rewrite <- (RND_val pos) at 1. apply RND_mono. lia.
  - intros Hna.
    destruct (sub_val tg (pos + delta) Ht Hn) as [Hn2 Hv2].
    apply leb_false in Hna; [|exact Hn2 | exact num_0].
    rewrite val_0, Hv2 in Hna.
    destruct (Z_lt_le_dec (val (pos + delta)) (val tg)) as [Hlt|Hge]; [exact Hlt|].
    pose proof (RND_mono (val tg - val (pos + delta)) 0 ltac:(lia)) as Hm.
    rewrite RND_0 in Hm. lia.
Qed.

(** A step towards a target below. *)
Lemma step_down (pos tg delta : float) :
  is_fin pos -> is_fin tg -> is_num delta -> (0 <= val delta)%Z ->
  is_num (pos + - delta)
  /\ (val (pos + - delta) <= val pos)%Z
  /\ ((- (tg - (pos + - delta)) <=? 0) = false -> (val tg < val (pos + - delta))%Z).
Proof.
  intros Hp Ht Hd Hd0.
  destruct (opp_val delta Hd) as [Hnd Hvd].
  destruct (add_val pos (- delta) Hp Hnd) as [Hn Hv].
  split; [exact Hn|]. split.
  - rewrite Hv. rewrite <- (RND_val pos) at 2. apply RND_mono. lia.
  - intros Hna.
    destruct (sub_val tg (pos + - delta) Ht Hn) as [Hn2 Hv2].
    destruct (opp_val _ Hn2) as [Hn3 Hv3].
    apply leb_false in Hna; [|exact Hn3 | exact num_0].
    rewrite val_0, Hv3, Hv2 in Hna.
    destruct (Z_lt_le_dec (val tg) (val (pos + - delta))) as [Hlt|Hge]; [exact Hlt|].
    pose proof (RND_nonneg (val tg - val (pos + - delta)) ltac:(lia)) as Hm.
    lia.
Qed.

Lemma fin_100 : is_fin 100. Proof. reflexivity. Qed.
Lemma fin_0 : is_fin 0. Proof. reflexivity. Qed.

Lemma abs_0 : abs 0 = 0. Proof. reflexivity. Qed.

Lemma abs_opp (x : float) : abs (- x) = abs x.
Proof.
  apply Prim2SF_inj. rewrite !abs_spec, opp_spec.
  destruct (Prim2SF x); reflexivity.
Qed.

Lemma abs_nonneg_le (x y : float) :
  (0 <=? x) = true -> (x <=? y) = true -> (abs x <=? y) = true.
Proof.
  intros H0 H1.
  apply leb_true in H0. destruct H0 as (_ & Hx & H0). rewrite val_0 in H0.
  apply leb_true in H1. destruct H1 as (_ & Hy & H1).
  destruct (abs_val x Hx) as [Ha Hv].
  apply leb_intro; [exact Ha | exact Hy |]. rewrite Hv. lia.
Qed.

Lemma leb_refl_num (x : float) : is_num x -> (x <=? x) = true.
Proof. intros H. apply leb_intro; [exact H | exact H | lia]. Qed.

End Binary64Order.

(** Unfold the record updates and the operations of [Float64.float64]. *)
Ltac f_simpl :=
  cbn [STATE SETPOINT_MS PARCELS pending_clear_error
       position_km speed_ms payload_kg target_km running doors cabin
       set_cabin set_position_km set_speed_ms set_running set_target_km
       set_payload_kg set_doors_field with_STATE world_of
       nadd nsub nmul ndiv nabs nltb nleb Float64.float64] in *.

Ltac f_lits :=
  unfold TICK in *;
  change (@lit float Float64.float64 0) with 0%float in *;
  change (@lit float Float64.float64 1) with 1%float in *;
  change (@lit float Float64.float64 (-1)) with (-1)%float in *;
  change (@lit float Float64.float64 100) with 100%float in *;
  change (@lit float Float64.float64 200) with 200%float in *;
  change (@lit float Float64.float64 1000) with 1000%float in *;
  change (@lit float Float64.float64 0.2) with 0x1.999999999999ap-3%float in *;
  change (@lit float Float64.float64 0.01) with 0x1.47ae147ae147bp-7%float in *;
  change (@lit float Float64.float64 0.005) with 0x1.47ae147ae147bp-8%float in *.

(** * Properties on binary64 *)

Section Binary64.
Import Float64.
Local Open Scope float_scope.
Variable float_of_str : string -> option float.

Local Abbreviation World := (World float).
Local Abbreviation pyval := (pyval float).
Local Abbreviation Command := (Command float).
Local Abbreviation send_command := (send_command float_of_str).

(** The literals of the program are the binary64 values Python reads. *)
Lemma lit_values :
  @lit float _ 0 = 0 /\ @lit float _ 1 = 1 /\ @lit float _ (-1) = -1
  /\ @lit float _ 20 = 20 /\ @lit float _ 100 = 100 /\ @lit float _ 200 = 200
  /\ @lit float _ 1000 = 1000
  /\ @lit float _ 0.2 = 0x1.999999999999ap-3
  /\ @lit float _ 0.1 = 0x1.999999999999ap-4
  /\ @lit float _ 0.01 = 0x1.47ae147ae147bp-7
  /\ @lit float _ 0.005 = 0x1.47ae147ae147bp-8.
Proof. repeat split. Qed.

(** *** Order on floats, from the specification of the comparisons *)

Lemma SFcompare_antisym (x y : spec_float) :
  SFcompare y x = option_map CompOpp (SFcompare x y).
Proof.
  destruct x as [sx|sx| |sx mx ex], y as [sy|sy| |sy my ey]; simpl;
    try reflexivity;
    try (destruct sx; reflexivity); try (destruct sy; reflexivity);
    try (destruct sx, sy; reflexivity).
  destruct sx, sy; try reflexivity; f_equal;
    rewrite (Z.compare_antisym ex ey); destruct (ex ?= ey)%Z; simpl;
    try reflexivity;
    rewrite !Pos.compare_cont_antisym; reflexivity.
Qed.

Lemma leb_ltb_false (a b : float) : (a <=? b) = true -> (b <? a) = false.
Proof.
  rewrite leb_spec, ltb_spec. unfold SFleb, SFltb.
  rewrite (SFcompare_antisym (Prim2SF a) (Prim2SF b)).
  destruct (SFcompare (Prim2SF a) (Prim2SF b)) as [[| |]|]; simpl; congruence.
Qed.

(** What [max(0.0, min(hi, km))] computes, for a positive finite bound
    [hi] and any [km] but NaN: the clamp, as a number. *)
Lemma max_min_is_clamp (hi km : float) (mh : positive) (eh : Z) :
  Prim2SF hi = S754_finite false mh eh ->
  (km =? km) = true ->
  (py_max 0 (py_min hi km) =? clamp km 0 hi) = true.
Proof.
  intros Hhi Hn.
  assert (H0 : Prim2SF 0 = S754_zero false) by reflexivity.
  assert (Hh : (hi =? hi) = true).
  { rewrite FloatAxioms.eqb_spec, Hhi. unfold SFeqb. simpl.
    rewrite Z.compare_refl, Pos.compare_cont_refl. reflexivity. }
  assert (H00 : (0 =? 0) = true) by reflexivity.
  unfold py_max, py_min, clamp. cbn [nltb nleb neqb float64].
  destruct (km <? hi) eqn:H1; destruct (0 <? km) eqn:H2;
    destruct (km <? 0) eqn:H3; destruct (hi <? km) eqn:H4;
    destruct (0 <? hi) eqn:H5;
    try assumption;
    rewrite ?FloatAxioms.eqb_spec, ?ltb_spec, ?Hhi, ?H0 in *;
    unfold SFltb, SFeqb in *; clear Hh;
    destruct (Prim2SF km) as [s|s| |s m e]; simpl in *;
    try discriminate; try reflexivity;
    try (destruct s; simpl in *; discriminate);
    clear Hn;
    match goal with
    | H : context [Pos.compare_cont Eq ?m mh] |- _ =>
      match type of H with context [(?e ?= eh)%Z] =>
        pose proof (Z.compare_antisym e eh) as HZ;
        pose proof (Pos.compare_cont_antisym m mh Eq) as HP;
        destruct (e ?= eh)%Z; destruct (Pos.compare_cont Eq m mh);
        simpl in HZ, HP; rewrite HZ in *; try rewrite <- HP in *
      end
    end;
    match goal with s : bool |- _ => destruct s end; simpl in *;
    first [discriminate | reflexivity].
Qed.

(** NaN is not a number the clamp handles: it is sent to the upper bound. *)
Example clamp_of_nan :
  py_max 0 (py_min 100 nan) = 100.
Proof. reflexivity. Qed.

(** *** The doors *)

(** C5: [set_doors] asking for OPEN is refused, the globals staying as
    they are, whenever [|speed_ms| >= 0.1]; whenever [|speed_ms| < 0.1] it
    sets [doors] to OPEN, and asking for anything else sets [doors] to
    CLOSED under the same condition on the speed; no other field changes. *)
Theorem set_doors_gated_by_speed (c : Command) (w : World) :
  action c = set_doors ->
  ((lit 0.1 <=? nabs (speed_ms (STATE w)))%num = true ->
     send_command c w = Ok w)
  /\ ((nabs (speed_ms (STATE w)) <? lit 0.1)%num = true ->
      (dict_get "state" (payload_or_empty c) = Some (PyStr "OPEN") ->
         send_command c w
         = Ok (mkWorld
                 (mkState (position_km (STATE w)) (speed_ms (STATE w))
                          (payload_kg (STATE w)) OPEN (running (STATE w))
                          (target_km (STATE w)) (cabin (STATE w)))
                 (SETPOINT_MS w) (PARCELS w) (pending_clear_error w)))
      /\ (is_OPEN (dict_get "state" (payload_or_empty c)) = false ->
         send_command c w
         = Ok (mkWorld
                 (mkState (position_km (STATE w)) (speed_ms (STATE w))
                          (payload_kg (STATE w)) CLOSED (running (STATE w))
                          (target_km (STATE w)) (cabin (STATE w)))
                 (SETPOINT_MS w) (PARCELS w) (pending_clear_error w)))).
Proof.
  intros Ha. unfold send_command. rewrite Ha. split.
  - intros Hge. apply leb_ltb_false in Hge.
    cbn [nltb nabs float64] in *. rewrite Hge. reflexivity.
  - intros Hlt. rewrite Hlt. split; intros Hw; rewrite Hw; reflexivity.
Qed.

(** *** Clamping *)

(** C7 (as amended): [set_target] stores [clamp(km, 0, 100)] in
    [target_km] and [set_speed] stores [clamp(ms, 0, 200)] in
    [SETPOINT_MS], for every value [float] turns into a number; nothing
    else changes and the command is not refused.  150 km gives 100, -10 km
    gives 0 and 500 m/s gives 200.  An [int] is turned into a number when it
    is below [2^1024 - 2^970] in magnitude; from there on the command is
    refused with [OverflowError] and changes nothing: it is not clamped. *)
Theorem set_target_set_speed_clamp :
  (forall (c : Command) (w : World) (v : pyval) (km : float),
     action c = set_target ->
     dict_get "km" (payload_or_empty c) = Some v ->
     py_float float_of_str v = inr km ->
     (km ==? km)%num = true ->
     exists t : float,
       send_command c w
       = Ok (mkWorld
               (mkState (position_km (STATE w)) (speed_ms (STATE w))
                        (payload_kg (STATE w)) (doors (STATE w))
                        (running (STATE w)) t (cabin (STATE w)))
               (SETPOINT_MS w) (PARCELS w) (pending_clear_error w))
       /\ (t ==? clamp km (lit 0) (lit 100))%num = true)
  /\ (forall (c : Command) (w : World) (v : pyval) (ms : float),
     action c = set_speed ->
     dict_get "ms" (payload_or_empty c) = Some v ->
     py_float float_of_str v = inr ms ->
     (ms ==? ms)%num = true ->
     exists t : float,
       send_command c w = Ok (mkWorld (STATE w) t (PARCELS w) (pending_clear_error w))
       /\ (t ==? clamp ms (lit 0) (lit 200))%num = true)
  /\ (forall w : World,
     send_command (cmd_with set_target "km" (PyInt 150)) w
       = Ok (mkWorld
               (mkState (position_km (STATE w)) (speed_ms (STATE w))
                        (payload_kg (STATE w)) (doors (STATE w))
                        (running (STATE w)) 100 (cabin (STATE w)))
               (SETPOINT_MS w) (PARCELS w) (pending_clear_error w))
     /\ send_command (cmd_with set_target "km" (PyInt (-10))) w
       = Ok (mkWorld
               (mkState (position_km (STATE w)) (speed_ms (STATE w))
                        (payload_kg (STATE w)) (doors (STATE w))
                        (running (STATE w)) 0 (cabin (STATE w)))
               (SETPOINT_MS w) (PARCELS w) (pending_clear_error w))
     /\ send_command (cmd_with set_speed "ms" (PyInt 500)) w
       = Ok (mkWorld (STATE w) 200 (PARCELS w) (pending_clear_error w)))
  /\ (forall (c : Command) (w : World) (z : Z),
     (action c = set_target /\ dict_get "km" (payload_or_empty c) = Some (PyInt z))
     \/ (action c = set_speed /\ dict_get "ms" (payload_or_empty c) = Some (PyInt z)) ->
     ((Z.abs z < first_refused)%Z ->
        exists x : float,
          py_float float_of_str (PyInt z) = inr x /\ (x ==? x)%num = true)
     /\ ((first_refused <= Z.abs z)%Z ->
        send_command c w = Raised OverflowError w)).
Proof.
  split; [|split; [|split]].
  - intros c w v km Ha Hv Hf Hn.
    exists (py_max 0 (py_min 100 km)). split.
    + unfold send_command, dict_get_default. rewrite Ha, Hv, Hf. reflexivity.
    + apply (@max_min_is_clamp 100 km 7036874417766400 (-46)%Z); [reflexivity | exact Hn].
  - intros c w v ms Ha Hv Hf Hn.
    exists (py_max 0 (py_min 200 ms)). split.
    + unfold send_command, dict_get_default. rewrite Ha, Hv, Hf. reflexivity.
    + apply (@max_min_is_clamp 200 ms 7036874417766400 (-45)%Z); [reflexivity | exact Hn].
  - intros w. repeat split.
  - intros c w z Hc. split.
    + intros Hz. cbn [py_float of_int float64].
      destruct (float_of_int z) as [x|] eqn:E.
      * exists x. split; [reflexivity | exact (float_of_int_num z x E)].
      * apply float_of_int_refuses in E. lia.
    + intros Hz. apply float_of_int_refuses in Hz.
      unfold send_command, dict_get_default.
      destruct Hc as [[Ha Hv]|[Ha Hv]]; rewrite Ha, Hv;
        cbn [py_float of_int float64]; rewrite Hz; reflexivity.
Qed.


(** *** What the commands store is in range *)

Lemma ltb_leb (a b : float) : (a <? b) = true -> (a <=? b) = true.
Proof.
  rewrite leb_spec, ltb_spec. unfold SFleb, SFltb.
  destruct (SFcompare (Prim2SF a) (Prim2SF b)) as [[| |]|]; congruence.
Qed.

(** [max(0.0, min(hi, x))] lies between 0 and [hi] for every float [x],
    NaN and the infinities included. *)
Lemma max_min_within (hi x : float) (mh : positive) (eh : Z) :
  Prim2SF hi = S754_finite false mh eh ->
  (0 <=? py_max 0 (py_min hi x)) = true /\ (py_max 0 (py_min hi x) <=? hi) = true.
Proof.
  intros Hhi.
  assert (H0h : (0 <=? hi) = true).
  { rewrite leb_spec, Hhi. reflexivity. }
  assert (Hhh : (hi <=? hi) = true).
  { rewrite leb_spec, Hhi. unfold SFleb. simpl.
    rewrite Z.compare_refl, Pos.compare_cont_refl. reflexivity. }
  unfold py_max, py_min. cbn [nltb float64].
  destruct (x <? hi) eqn:H1.
  - destruct (0 <? x) eqn:H2.
    + split; apply ltb_leb; assumption.
    + split; [reflexivity | exact H0h].
  - destruct (0 <? hi) eqn:H2.
    + split; assumption.
    + split; [reflexivity | exact H0h].
Qed.

Lemma send_command_target_setpoint (c : Command) (w : World) :
  target_setpoint_bounds w = true ->
  target_setpoint_bounds (world_of (send_command c w)) = true.
Proof.
  intros H. unfold send_command.
  destruct (action c); cbn [world_of]; try exact H.
  - destruct (negb _); exact H.
  - destruct (_ <? _)%num; exact H.
  - destruct (py_float float_of_str _) as [e|km]; [exact H|].
    unfold target_setpoint_bounds in *.
    cbn [world_of STATE with_STATE set_target_km target_km SETPOINT_MS] in *.
    apply andb_prop in H. destruct H as [H Hs2].
    apply andb_prop in H. destruct H as [H Hs1].
    destruct (max_min_within 100 km 7036874417766400 (-46)%Z eq_refl) as [Ha Hb].
    change (@lit float _ 0) with 0 in *. change (@lit float _ 100) with 100 in *.
    cbn [nleb float64] in *.
    rewrite Ha, Hb, Hs1, Hs2. reflexivity.
  - destruct (py_float float_of_str _) as [e|ms]; [exact H|].
    unfold target_setpoint_bounds in *.
    cbn [world_of STATE target_km SETPOINT_MS] in *.
    apply andb_prop in H. destruct H as [H Hs2].
    apply andb_prop in H. destruct H as [H Hs1].
    apply andb_prop in H. destruct H as [Ht1 Ht2].
    destruct (max_min_within 200 ms 7036874417766400 (-45)%Z eq_refl) as [Ha Hb].
    change (@lit float _ 0) with 0 in *. change (@lit float _ 200) with 200 in *.
    cbn [nleb float64] in *.
    rewrite Ha, Hb, Ht1, Ht2. reflexivity.
  - destruct (load_first_queued _) as [[ps kg]|]; exact H.
Qed.

(** A tick writes neither the target nor the setpoint. *)
Lemma tick_target_setpoint (w : World) :
  target_setpoint_bounds (tick w) = target_setpoint_bounds w.
Proof.
  unfold tick, target_setpoint_bounds.
  repeat match goal with |- context [if ?b then _ else _] => destruct b end;
    reflexivity.
Qed.

Lemma step_target_setpoint (e : Event float) (w w' : World) :
  target_setpoint_bounds w = true ->
  step float_of_str e w = Some w' ->
  target_setpoint_bounds w' = true.
Proof.
  intros H Hs. destruct e as [c| | |p]; simpl in Hs.
  - inversion Hs. apply send_command_target_setpoint. exact H.
  - inversion Hs. rewrite tick_target_setpoint. exact H.
  - destruct (pending_clear_error w) as [|k]; [discriminate|].
    inversion Hs. unfold clear_error. cbn [STATE].
    destruct (cabin_eqb (cabin (STATE w)) ERROR); exact H.
  - inversion Hs. exact H.
Qed.

(** On binary64, whatever the payloads (NaN and the infinities included),
    every reachable state has [0 <= target_km <= 100] and
    [0 <= SETPOINT_MS <= 200]. *)
Theorem reachable_target_setpoint_bounds (w : World) :
  Reachable float_of_str w -> target_setpoint_bounds w = true.
Proof.
  intros [es Hr].
  assert (H0 : target_setpoint_bounds (World0 : World) = true) by reflexivity.
  revert Hr H0. generalize (World0 : World).
  induction es as [|e es IH]; intros w0 Hr H0; simpl in Hr.
  - inversion Hr. subst. exact H0.
  - destruct (step float_of_str e w0) as [w1|] eqn:Hs; [|discriminate].
    apply (IH w1 Hr). apply (step_target_setpoint e w0); assumption.
Qed.

(** *** The run to kilometre 50 *)

Lemma sim_loop_while_sound (P : World -> bool) (n : nat) (w w' : World) :
  sim_loop_while P n w = Some w' ->
  sim_loop n w = w' /\ forall k : nat, (k <= n)%nat -> P (sim_loop k w) = true.
Proof.
  revert w. induction n as [|n IH]; intros w H; simpl in H;
    destruct (P w) eqn:HP; try discriminate.
  - inversion H. subst. split; [reflexivity|].
    intros k Hk. assert (k = 0)%nat by lia. subst k. exact HP.
  - destruct (IH _ H) as [Hw Hall]. split; [exact Hw|].
    intros [|k] Hk; [exact HP|]. simpl. apply Hall. lia.
Qed.

Lemma sim_loop_fixed (w : World) (n : nat) : tick w = w -> sim_loop n w = w.
Proof.
  intros H. induction n as [|n IH]; simpl; [reflexivity | rewrite H; exact IH].
Qed.

(** C3 (the code departs from it): after [set_target] to 50 and [start]
    the cabin never arrives.  After every number of ticks it is still
    running, in mode MOVING and below kilometre 50; from tick 12498 on it
    rests at 49.99199999999405, inside the band where it is neither moved
    (within 0.01 of the target) nor taken as arrived (within 0.005). *)
Theorem cabin_stalls_short_of_target (n : nat) :
  running (STATE (sim_loop n (started float_of_str))) = true
  /\ cabin (STATE (sim_loop n (started float_of_str))) = MOVING
  /\ (position_km (STATE (sim_loop n (started float_of_str))) <? 50) = true
  /\ ((stall_tick <= n)%nat ->
      position_km (STATE (sim_loop n (started float_of_str))) = stall_position).
Proof.
  assert (Hs : started float_of_str = started no_strings) by reflexivity.
  rewrite Hs. clear Hs.
  assert (Hrun : sim_loop_while under_way_below_50 stall_tick (started no_strings)
                 = Some last_move) by (vm_compute; reflexivity).
  apply sim_loop_while_sound in Hrun. destruct Hrun as [Hlast Hall].
  assert (Hnext : tick last_move = stalled) by (vm_compute; reflexivity).
  assert (Hfix : tick stalled = stalled) by (vm_compute; reflexivity).
  assert (Hok : under_way_below_50 stalled = true) by (vm_compute; reflexivity).
  revert Hlast Hall. generalize stall_tick. intros T Hlast Hall.
  assert (Hlate : forall k, sim_loop (T + S k) (started no_strings) = stalled).
  { intros k. rewrite sim_loop_app, Hlast. simpl. rewrite Hnext.
    apply sim_loop_fixed. exact Hfix. }
  assert (Hn : under_way_below_50 (sim_loop n (started no_strings)) = true).
  { destruct (Nat.le_gt_cases n T) as [Hle|Hgt].
    - apply Hall. exact Hle.
    - replace n with (T + S (n - S T))%nat by lia. rewrite Hlate. exact Hok. }
  unfold under_way_below_50 in Hn.
  apply andb_prop in Hn. destruct Hn as [Hn H3].
  apply andb_prop in Hn. destruct Hn as [H1 H2].
  repeat split.
  - exact H1.
  - destruct (cabin (STATE (sim_loop n (started no_strings)))); simpl in H2;
      try discriminate; reflexivity.
  - exact H3.
  - intros Hge.
    destruct (Nat.eq_dec n T) as [->|Hne]; [rewrite Hlast; reflexivity|].
    replace n with (T + S (n - S T))%nat by lia.
    rewrite Hlate. reflexivity.
Qed.

(** *** Commands that are ignored, clamped or refused *)

Lemma max_min_above (hi x : float) :
  (0 <? hi) = true -> (hi <? x) = true -> py_max 0 (py_min hi x) = hi.
Proof.
  intros H0 H. unfold py_max, py_min. cbn [nltb float64].
  rewrite (leb_ltb_false hi x (ltb_leb hi x H)), H0. reflexivity.
Qed.

Lemma max_min_below (hi x : float) :
  (0 <? hi) = true -> (x <? 0) = true -> py_max 0 (py_min hi x) = 0.
Proof.
  intros H0 H. unfold py_max, py_min. cbn [nltb float64].
  assert (Hx : (x <? hi) = true).
  { apply ltb_true in H0. destruct H0 as (_ & Nh & V0).
    apply ltb_true in H. destruct H as (Nx & _ & Vx).
    rewrite ltb_val by assumption. apply Z.ltb_lt. lia. }
  rewrite Hx, (leb_ltb_false x 0 (ltb_leb x 0 H)). reflexivity.
Qed.

(** C4 (as amended): [send_command] returns [{"ok": True}] for every
    command but a [set_target] or [set_speed] whose [km] or [ms] value
    [float] refuses; for those the exception leaves the handler and the
    globals are as they were.  A [start] with the doors open, a [set_doors]
    at a speed that is not below 0.1 and a [load_from_warehouse] with
    nothing queued return ok and change nothing; a [km] above 100 or below 0
    is stored as 100 or 0, an [ms] above 200 or below 0 as 200 or 0, with
    ok. *)
Theorem send_command_ok_unless_float_raises (c : Command) (w : World) :
  match converted_value c w with
  | None => exists w', send_command c w = Ok w'
  | Some v =>
      match py_float float_of_str v with
      | inr _ => exists w', send_command c w = Ok w'
      | inl e => send_command c w = Raised e w
      end
  end
  /\ (action c = start -> doors (STATE w) = OPEN -> send_command c w = Ok w)
  /\ (action c = set_doors ->
      (nabs (speed_ms (STATE w)) <? lit 0.1)%num = false ->
      send_command c w = Ok w)
  /\ (action c = load_from_warehouse ->
      Forall (fun q => status q <> QUEUED) (PARCELS w) ->
      send_command c w = Ok w)
  /\ (action c = set_target ->
      (forall e : exn,
         py_float float_of_str (dict_get_default "km" (PyInt 0) (payload_or_empty c))
           = inl e ->
         send_command c w = Raised e w)
      /\ (forall km : float,
         py_float float_of_str (dict_get_default "km" (PyInt 0) (payload_or_empty c))
           = inr km ->
         exists w',
           send_command c w = Ok w'
           /\ ((lit 100 <? km)%num = true -> target_km (STATE w') = lit 100)
           /\ ((km <? lit 0)%num = true -> target_km (STATE w') = lit 0)))
  /\ (action c = set_speed ->
      (forall e : exn,
         py_float float_of_str
           (dict_get_default "ms" (PyFloat (SETPOINT_MS w)) (payload_or_empty c))
           = inl e ->
         send_command c w = Raised e w)
      /\ (forall ms : float,
         py_float float_of_str
           (dict_get_default "ms" (PyFloat (SETPOINT_MS w)) (payload_or_empty c))
           = inr ms ->
         exists w',
           send_command c w = Ok w'
           /\ ((lit 200 <? ms)%num = true -> SETPOINT_MS w' = lit 200)
           /\ ((ms <? lit 0)%num = true -> SETPOINT_MS w' = lit 0))).
Proof.
  split; [|split; [|split; [|split; [|split]]]].
  - unfold converted_value, send_command.
    destruct (action c); simpl.
    + destruct (negb _); eexists; reflexivity.
    + eexists; reflexivity.
    + eexists; reflexivity.
    + destruct (_ <? _); eexists; reflexivity.
    + destruct (py_float _ _); [reflexivity | eexists; reflexivity].
    + destruct (py_float _ _); [reflexivity | eexists; reflexivity].
    + destruct (load_first_queued _) as [[ps kg]|]; eexists; reflexivity.
  - intros Ha Hd. unfold send_command. rewrite Ha, Hd. reflexivity.
  - intros Ha Hs. unfold send_command. rewrite Ha, Hs. reflexivity.
  - intros Ha Hq. unfold send_command. rewrite Ha.
    rewrite (load_first_queued_none _ Hq). reflexivity.
  - intros Ha. split.
    + intros e Hf. unfold send_command. rewrite Ha, Hf. reflexivity.
    + intros km Hf. unfold send_command. rewrite Ha, Hf.
      eexists. split; [reflexivity|].
      cbn [STATE with_STATE set_target_km target_km].
      change (@lit float _ 0) with 0. change (@lit float _ 100) with 100.
      split; intros H.
      * apply max_min_above; [reflexivity | exact H].
      * apply max_min_below; [reflexivity | exact H].
  - intros Ha. split.
    + intros e Hf. unfold send_command. rewrite Ha, Hf. reflexivity.
    + intros ms Hf. unfold send_command. rewrite Ha, Hf.
      eexists. split; [reflexivity|].
      cbn [SETPOINT_MS].
      change (@lit float _ 0) with 0. change (@lit float _ 200) with 200.
      split; intros H.
      * apply max_min_above; [reflexivity | exact H].
      * apply max_min_below; [reflexivity | exact H].
Qed.

(** *** The bounds of the reachable states *)

(** A tick keeps the bounds, and leaves a speed within the setpoint. *)
Lemma tick_kept (w : World) :
  kept_bounds w = true ->
  kept_bounds (tick w) = true
  /\ (nabs (speed_ms (STATE (tick w))) <=? SETPOINT_MS (tick w))%num = true.
Proof.
  destruct w as [[pos sp pl d r tg cb] set ps n]. unfold kept_bounds, tick.
  f_simpl. f_lits. intros H.
  repeat match goal with
  | H : _ && _ = true |- _ => apply andb_prop in H; destruct H
  end.
  match goal with
  | H1 : (0 <=? pos) = true, H2 : (pos <=? 100) = true,
    H3 : (0 <=? tg) = true, H4 : (tg <=? 100) = true,
    H5 : (0 <=? set) = true, H6 : (set <=? 200) = true,
    H7 : (abs sp <=? 200) = true |- _ =>
      rename H1 into Hp0, H2 into Hp1, H3 into Ht0, H4 into Ht1,
             H5 into Hs0, H6 into Hs1, H7 into Hv
  end.
  assert (Hz : (abs 0 <=? set) = true) by (rewrite abs_0; exact Hs0).
  assert (Hz2 : (abs 0 <=? 200) = true) by reflexivity.
  destruct (r && negb (doors_open d) && (0x1.47ae147ae147bp-7 <? abs (tg - pos))) eqn:Hm.
  2:{ destruct (negb r); f_simpl; rewrite Hp0, Hp1, Ht0, Ht1, Hs0, Hs1, Hz, Hz2;
        split; reflexivity. }
  pose proof (fin_between pos 0 100 fin_0 fin_100 Hp0 Hp1) as Fp.
  pose proof (fin_between tg 0 100 fin_0 fin_100 Ht0 Ht1) as Ft.
  pose proof (leb_true _ _ Hs0) as (_ & Ns & Vs). rewrite val_0 in Vs.
  destruct (step_nonneg set Ns Vs) as [Nd Vd].
  pose proof (leb_true _ _ Hp0) as (_ & Np & Vp0). rewrite val_0 in Vp0.
  pose proof (leb_true _ _ Hp1) as (_ & _ & Vp1).
  pose proof (leb_true _ _ Ht0) as (_ & Nt & Vt0). rewrite val_0 in Vt0.
  pose proof (leb_true _ _ Ht1) as (_ & _ & Vt1).
  assert (Hss : (abs set <=? set) = true)
    by (apply abs_nonneg_le; [exact Hs0 | apply leb_refl_num; exact Ns]).
  assert (Hs2 : (abs set <=? 200) = true) by (apply abs_nonneg_le; assumption).
  destruct (pos <? tg) eqn:Hdir.
  - rewrite !float_mul_1_l, float_mul_1_r.
    destruct (step_up pos tg _ Fp Ft Nd Vd) as (Nn & Vlo & Vhi).
    match goal with |- context [if ?b then _ else _] => destruct b eqn:Ha end;
      f_simpl.
    + rewrite Ht0, Ht1, Hs0, Hs1, Hz, Hz2. split; reflexivity.
    + apply orb_false_elim in Ha. destruct Ha as [Ha _]. specialize (Vhi Ha).
      rewrite Ht0, Ht1, Hs0, Hs1, Hss, Hs2.
      rewrite (leb_intro 0 _ num_0 Nn) by (rewrite val_0; lia).
      rewrite (leb_intro _ 100 Nn (is_fin_num _ fin_100)) by lia.
      split; reflexivity.
  - rewrite !float_mul_m1_l, float_mul_m1_r.
    destruct (step_down pos tg _ Fp Ft Nd Vd) as (Nn & Vhi & Vlo).
    match goal with |- context [if ?b then _ else _] => destruct b eqn:Ha end;
      f_simpl.
    + rewrite Ht0, Ht1, Hs0, Hs1, Hz, Hz2. split; reflexivity.
    + apply orb_false_elim in Ha. destruct Ha as [Ha _]. specialize (Vlo Ha).
      rewrite abs_opp.
      rewrite Ht0, Ht1, Hs0, Hs1, Hss, Hs2.
      rewrite (leb_intro 0 _ num_0 Nn) by (rewrite val_0; lia).
      rewrite (leb_intro _ 100 Nn (is_fin_num _ fin_100)) by lia.
      split; reflexivity.
Qed.

Lemma send_command_kept (c : Command) (w : World) :
  kept_bounds w = true -> kept_bounds (world_of (send_command c w)) = true.
Proof.
  destruct w as [[pos sp pl d r tg cb] set ps n].
  unfold kept_bounds, send_command. f_simpl. intros H.
  destruct (action c); f_simpl; try exact H.
  - destruct (negb (doors_open d)); f_simpl; exact H.
  - destruct (abs sp <? _); f_simpl; exact H.
  - destruct (py_float float_of_str _) as [e|km]; f_simpl; [exact H|].
    destruct (max_min_within 100 km 7036874417766400 (-46)%Z eq_refl) as [Ha Hb].
    f_lits. f_simpl.
    repeat match goal with
    | H : _ && _ = true |- _ => apply andb_prop in H; destruct H
    end.
    repeat (apply andb_true_intro; split); assumption.
  - destruct (py_float float_of_str _) as [e|ms]; f_simpl; [exact H|].
    destruct (max_min_within 200 ms 7036874417766400 (-45)%Z eq_refl) as [Ha Hb].
    f_lits. f_simpl.
    repeat match goal with
    | H : _ && _ = true |- _ => apply andb_prop in H; destruct H
    end.
    repeat (apply andb_true_intro; split); assumption.
  - destruct (load_first_queued ps) as [[ps' kg]|]; f_simpl; exact H.
Qed.

Lemma step_kept (e : Event float) (w w' : World) :
  kept_bounds w = true -> step float_of_str e w = Some w' -> kept_bounds w' = true.
Proof.
  intros H Hs. destruct e as [c| | |p]; simpl in Hs.
  - inversion Hs. apply send_command_kept. exact H.
  - inversion Hs. apply tick_kept. exact H.
  - destruct (pending_clear_error w) as [|k]; [discriminate|].
    inversion Hs. unfold clear_error. cbn [STATE].
    destruct (cabin_eqb (cabin (STATE w)) ERROR); exact H.
  - inversion Hs. exact H.
Qed.

Lemma run_kept (es : list (Event float)) (w w' : World) :
  kept_bounds w = true -> run float_of_str es w = Some w' -> kept_bounds w' = true.
Proof.
  revert w. induction es as [|e es IH]; intros w H Hr; simpl in Hr.
  - inversion Hr. subst. exact H.
  - destruct (step float_of_str e w) as [w1|] eqn:Hs; [|discriminate].
    apply (IH w1); [|exact Hr]. apply (step_kept e w); assumption.
Qed.

(** C2 (as amended), on binary64: in every state reachable by commands,
    ticks, recovery tasks and new parcels, whatever the payloads,
    [0 <= position_km <= 100], [0 <= target_km <= 100],
    [0 <= setpoint_ms <= 200] and [|speed_ms| <= 200]; and
    [|speed_ms| <= setpoint_ms] holds in the state the next tick leaves. *)
Theorem reachable_bounds (w : World) :
  Reachable float_of_str w ->
  ((lit 0 <=? position_km (STATE w))%num = true
   /\ (position_km (STATE w) <=? lit 100)%num = true
   /\ (lit 0 <=? target_km (STATE w))%num = true
   /\ (target_km (STATE w) <=? lit 100)%num = true
   /\ (lit 0 <=? SETPOINT_MS w)%num = true
   /\ (SETPOINT_MS w <=? lit 200)%num = true
   /\ (nabs (speed_ms (STATE w)) <=? lit 200)%num = true)
  /\ (nabs (speed_ms (STATE (tick w))) <=? SETPOINT_MS (tick w))%num = true.
Proof.
  intros [es Hr].
  assert (H : kept_bounds w = true) by (apply (run_kept es World0); [reflexivity | exact Hr]).
  split; [|apply tick_kept; exact H].
  unfold kept_bounds in H.
  repeat match goal with
  | H : _ && _ = true |- _ => apply andb_prop in H; destruct H
  end.
  repeat split; assumption.
Qed.

(** *** A tick that moves the cabin *)

Lemma ltb_intro (x y : float) :
  is_num x -> is_num y -> (val x < val y)%Z -> (x <? y) = true.
Proof. intros Hx Hy H. rewrite ltb_val by assumption. apply Z.ltb_lt. exact H. Qed.

(** On binary64, a tick that moves the cabin (running, doors CLOSED, more
    than 0.01 km from the target) never takes it past the target and never
    back: either it finds the cabin arrived and puts it on the target,
    stopped and IDLE, or the cabin is still running, in mode MOVING, at
    exactly the setpoint's speed towards the target, not before where it was
    and strictly short of the target. *)
Theorem moving_tick_never_overshoots (w : World) :
  Reachable float_of_str w ->
  running (STATE w) = true ->
  doors (STATE w) = CLOSED ->
  (nabs (target_km (STATE w) - position_km (STATE w)) >? lit 0.01)%num = true ->
  STATE (tick w)
  = mkState (target_km (STATE w)) 0 (payload_kg (STATE w)) CLOSED false
            (target_km (STATE w)) IDLE
  \/ (running (STATE (tick w)) = true
      /\ cabin (STATE (tick w)) = MOVING
      /\ target_km (STATE (tick w)) = target_km (STATE w)
      /\ ((position_km (STATE w) <? target_km (STATE w)) = true
          /\ speed_ms (STATE (tick w)) = SETPOINT_MS w
          /\ (position_km (STATE w) <=? position_km (STATE (tick w))) = true
          /\ (position_km (STATE (tick w)) <? target_km (STATE w)) = true
          \/ (target_km (STATE w) <? position_km (STATE w)) = true
             /\ speed_ms (STATE (tick w)) = - SETPOINT_MS w
             /\ (target_km (STATE w) <? position_km (STATE (tick w))) = true
             /\ (position_km (STATE (tick w)) <=? position_km (STATE w)) = true)).
Proof.
  intros [es Hr].
  assert (H : kept_bounds w = true) by (apply (run_kept es World0); [reflexivity | exact Hr]).
  clear Hr es. revert H.
  destruct w as [[pos sp pl d r tg cb] set ps n]. unfold kept_bounds, tick.
  f_simpl. f_lits. intros H Hrun Hd Hfar. subst r d.
  repeat match goal with
  | H : _ && _ = true |- _ => apply andb_prop in H; destruct H
  end.
  match goal with
  | H1 : (0 <=? pos) = true, H2 : (pos <=? 100) = true,
    H3 : (0 <=? tg) = true, H4 : (tg <=? 100) = true,
    H5 : (0 <=? set) = true, H6 : (set <=? 200) = true,
    H7 : (abs sp <=? 200) = true |- _ =>
      rename H1 into Hp0, H2 into Hp1, H3 into Ht0, H4 into Ht1,
             H5 into Hs0, H6 into Hs1, H7 into Hv
  end.
  cbn [doors_open negb andb]. rewrite Hfar.
  pose proof (fin_between pos 0 100 fin_0 fin_100 Hp0 Hp1) as Fp.
  pose proof (fin_between tg 0 100 fin_0 fin_100 Ht0 Ht1) as Ft.
  pose proof (leb_true _ _ Hs0) as (_ & Ns & Vs). rewrite val_0 in Vs.
  destruct (step_nonneg set Ns Vs) as [Nd Vd].
  destruct (pos <? tg) eqn:Hdir.
  - rewrite !float_mul_1_l, float_mul_1_r.
    destruct (step_up pos tg _ Fp Ft Nd Vd) as (Nn & Vlo & Vhi).
    match goal with |- context [if ?b then _ else _] => destruct b eqn:Ha end;
      f_simpl; [left; reflexivity | right].
    apply orb_false_elim in Ha. destruct Ha as [Ha _]. specialize (Vhi Ha).
    split; [reflexivity|]. split; [reflexivity|]. split; [reflexivity|]. left.
    split; [reflexivity|]. split; [reflexivity|]. split.
    + apply leb_intro; [apply is_fin_num, Fp | exact Nn | exact Vlo].
    + apply ltb_intro; [exact Nn | apply is_fin_num, Ft | exact Vhi].
  - rewrite !float_mul_m1_l, float_mul_m1_r.
    destruct (step_down pos tg _ Fp Ft Nd Vd) as (Nn & Vhi & Vlo).
    match goal with |- context [if ?b then _ else _] => destruct b eqn:Ha end;
      f_simpl; [left; reflexivity | right].
    apply orb_false_elim in Ha. destruct Ha as [Ha _]. specialize (Vlo Ha).
    split; [reflexivity|]. split; [reflexivity|]. split; [reflexivity|]. right.
    assert (Hlt : (val tg < val pos)%Z).
    { destruct (sub_val tg pos Ft (is_fin_num _ Fp)) as [N1 V1].
      destruct (abs_val _ N1) as [N2 V2].
      apply ltb_true in Hfar. destruct Hfar as (_ & _ & Hfar).
      rewrite V2, V1 in Hfar.
      assert (H001 : (0 < val 0x1.47ae147ae147bp-7)%Z) by reflexivity.
      rewrite ltb_val in Hdir by (apply is_fin_num; assumption).
      apply Z.ltb_ge in Hdir.
      destruct (Z.eq_dec (val tg) (val pos)) as [E|E]; [|lia].
      rewrite E, Z.sub_diag, RND_0 in Hfar. simpl in Hfar. lia. }
    split; [apply ltb_intro; [apply is_fin_num, Ft | apply is_fin_num, Fp | exact Hlt]|].
    split; [reflexivity|]. split.
    + apply ltb_intro; [apply is_fin_num, Ft | exact Nn | exact Vlo].
    + apply leb_intro; [exact Nn | apply is_fin_num, Fp | exact Vhi].
Qed.

(** *** The distance to the target *)

Lemma sim_loop_kept (n : nat) (w : World) :
  kept_bounds w = true -> kept_bounds (sim_loop n w) = true.
Proof.
  revert w. induction n as [|n IH]; intros w H; simpl; [exact H|].
  apply IH, tick_kept, H.
Qed.

(** One tick does not take the cabin farther from its target. *)
Lemma tick_not_farther (w : World) :
  kept_bounds w = true ->
  (nabs (target_km (STATE (tick w)) - position_km (STATE (tick w)))
   <=? nabs (target_km (STATE w) - position_km (STATE w)))%num = true.
Proof.
  destruct w as [[pos sp pl d r tg cb] set ps n]. unfold kept_bounds, tick.
  f_simpl. f_lits. intros H.
  repeat match goal with
  | H : _ && _ = true |- _ => apply andb_prop in H; destruct H
  end.
  match goal with
  | H1 : (0 <=? pos) = true, H2 : (pos <=? 100) = true,
    H3 : (0 <=? tg) = true, H4 : (tg <=? 100) = true,
    H5 : (0 <=? set) = true, H6 : (set <=? 200) = true,
    H7 : (abs sp <=? 200) = true |- _ =>
      rename H1 into Hp0, H2 into Hp1, H3 into Ht0, H4 into Ht1,
             H5 into Hs0, H6 into Hs1, H7 into Hv
  end.
  pose proof (fin_between pos 0 100 fin_0 fin_100 Hp0 Hp1) as Fp.
  pose proof (fin_between tg 0 100 fin_0 fin_100 Ht0 Ht1) as Ft.
  destruct (sub_val tg pos Ft (is_fin_num _ Fp)) as [Nd0 Vd0].
  destruct (abs_val _ Nd0) as [Na0 Va0].
  destruct (r && negb (doors_open d) && (0x1.47ae147ae147bp-7 <? abs (tg - pos))) eqn:Hm.
  2:{ destruct (negb r); f_simpl; apply leb_refl_num; exact Na0. }
  pose proof (leb_true _ _ Hs0) as (_ & Ns & Vs). rewrite val_0 in Vs.
  destruct (step_nonneg set Ns Vs) as [Nd Vd].
  assert (Harr : (abs (tg - tg) <=? abs (tg - pos)) = true).
  { destruct (sub_val tg tg Ft (is_fin_num _ Ft)) as [N1 V1].
    destruct (abs_val _ N1) as [N2 V2].
    apply leb_intro; [exact N2 | exact Na0 |].
    rewrite V2, V1, Z.sub_diag, RND_0, Va0. simpl. lia. }
  destruct (pos <? tg) eqn:Hdir.
  - rewrite !float_mul_1_l, float_mul_1_r.
    destruct (step_up pos tg _ Fp Ft Nd Vd) as (Nn & Vlo & Vhi).
    match goal with |- context [if ?b then _ else _] => destruct b eqn:Ha end;
      f_simpl; [exact Harr|].
    apply orb_false_elim in Ha. destruct Ha as [Ha _]. specialize (Vhi Ha).
    destruct (sub_val tg _ Ft Nn) as [N1 V1].
    destruct (abs_val _ N1) as [N2 V2].
    apply leb_intro; [exact N2 | exact Na0 |].
    rewrite V2, V1, Va0, Vd0.
    pose proof (RND_mono (val tg - val (pos + set / 1000 * 0x1.999999999999ap-3))
                  (val tg - val pos) ltac:(lia)) as Hm1.
    pose proof (RND_nonneg (val tg - val (pos + set / 1000 * 0x1.999999999999ap-3))
                  ltac:(lia)) as Hm2.
    lia.
  - rewrite !float_mul_m1_l, float_mul_m1_r.
    destruct (step_down pos tg _ Fp Ft Nd Vd) as (Nn & Vhi & Vlo).
    match goal with |- context [if ?b then _ else _] => destruct b eqn:Ha end;
      f_simpl; [exact Harr|].
    apply orb_false_elim in Ha. destruct Ha as [Ha _]. specialize (Vlo Ha).
    destruct (sub_val tg _ Ft Nn) as [N1 V1].
    destruct (abs_val _ N1) as [N2 V2].
    apply leb_intro; [exact N2 | exact Na0 |].
    rewrite V2, V1, Va0, Vd0.
    pose proof (RND_mono (val tg - val pos)
                  (val tg - val (pos + - (set / 1000 * 0x1.999999999999ap-3)))
                  ltac:(lia)) as Hm1.
    pose proof (RND_mono (val tg - val (pos + - (set / 1000 * 0x1.999999999999ap-3)))
                  0 ltac:(lia)) as Hm2.
    rewrite RND_0 in Hm2. lia.
Qed.

(** On binary64, from every reachable state, no tick takes the cabin
    farther from its target: the distance [|target_km - position_km|]
    after [n + 1] ticks is at most the distance after [n] ticks, whatever
    the rounding of the step does. *)
Theorem ticks_never_move_away (w : World) (n : nat) :
  Reachable float_of_str w ->
  (nabs (target_km (STATE (sim_loop (S n) w)) - position_km (STATE (sim_loop (S n) w)))
   <=? nabs (target_km (STATE (sim_loop n w)) - position_km (STATE (sim_loop n w))))%num
  = true.
Proof.
  intros [es Hr].
  assert (H : kept_bounds w = true) by (apply (run_kept es World0); [reflexivity | exact Hr]).
  replace (S n) with (n + 1)%nat by lia. rewrite sim_loop_app. cbn [sim_loop].
  apply tick_not_farther, sim_loop_kept, H.
Qed.

End Binary64.

(** ** Where three claims fail *)

Section Failures.
Import Float64.
Local Open Scope float_scope.

(** C2 (as the specification states it): after [set_target] to 50,
    [start], one tick and [set_speed] to 10, the cabin's speed is still 20
    while the setpoint is 10, so [|speed_ms| <= setpoint_ms] is false in a
    reachable state. *)
Lemma speed_above_lowered_setpoint :
  option_map (fun w => speed_ms (STATE w)) (run no_strings lowered_setpoint_trace World0)
    = Some 20
  /\ option_map (@SETPOINT_MS float) (run no_strings lowered_setpoint_trace World0)
    = Some 10
  /\ option_map (fun w => (nabs (speed_ms (STATE w)) <=? SETPOINT_MS w)%num)
       (run no_strings lowered_setpoint_trace World0)
    = Some false
  /\ option_map claimed_bounds (run no_strings lowered_setpoint_trace World0)
    = Some false.
Proof.
  repeat split; vm_compute; reflexivity.
Qed.

(** C4 (as the specification states it): [set_target] with [{"km": null}]
    does not return: [float(None)] raises [TypeError]; so does a list, and
    an integer too large for a float raises [OverflowError]. *)
Lemma set_target_null_raises :
  send_command no_strings (cmd_with set_target "km" PyNone) World0
    = Raised TypeError World0
  /\ send_command no_strings (cmd_with set_speed "ms" (PyList [])) World0
    = Raised TypeError World0
  /\ send_command no_strings (cmd_with set_target "km" (PyInt (10 ^ 400))) World0
    = Raised OverflowError World0.
Proof.
  repeat split.
Qed.

(** C7 (as the specification states it): [set_target] to [10^400] km, a
    real number far above the range, is not clamped to 100: the command is
    refused with [OverflowError] and [target_km] stays at 50; [set_speed]
    to [-10^400] is refused in the same way and the setpoint stays at 20. *)
Lemma set_target_beyond_float_range_raises :
  target_km (STATE moving_at_20) = 50
  /\ SETPOINT_MS moving_at_20 = 20
  /\ send_command no_strings (cmd_with set_target "km" (PyInt (10 ^ 400))) moving_at_20
     = Raised OverflowError moving_at_20
  /\ send_command no_strings (cmd_with set_speed "ms" (PyInt (- 10 ^ 400))) moving_at_20
     = Raised OverflowError moving_at_20.
Proof.
  repeat split; vm_compute; reflexivity.
Qed.

End Failures.

(** * The statements at concrete inputs *)

Section Witnesses.
Import Float64.
Local Open Scope float_scope.

(** [set_doors] at 20 m/s and at rest. *)
Lemma set_doors_gated_by_speed_witness :
  send_command no_strings (cmd_with set_doors "state" (PyStr "OPEN")) moving_at_20
    = Ok moving_at_20
  /\ send_command no_strings (cmd_with set_doors "state" (PyStr "OPEN")) World0
    = Ok (mkWorld (mkState 0 0 0 OPEN false 0 IDLE) 20 [] 0%nat)
  /\ send_command no_strings (cmd set_doors)
       (mkWorld (mkState 0 0 0 OPEN false 0 IDLE) 20 [] 0%nat)
    = Ok (mkWorld (mkState 0 0 0 CLOSED false 0 IDLE) 20 [] 0%nat).
Proof.
  split; [|split].
  - apply (proj1 (set_doors_gated_by_speed no_strings
             (cmd_with set_doors "state" (PyStr "OPEN")) moving_at_20 eq_refl)).
    vm_compute. reflexivity.
  - refine (proj1 (proj2 (set_doors_gated_by_speed no_strings
             (cmd_with set_doors "state" (PyStr "OPEN")) World0 eq_refl) _) _).
    + vm_compute. reflexivity.
    + reflexivity.
  - refine (proj2 (proj2 (set_doors_gated_by_speed no_strings (cmd set_doors)
             (mkWorld (mkState 0 0 0 OPEN false 0 IDLE) 20 [] 0%nat) eq_refl) _) _).
    + vm_compute. reflexivity.
    + reflexivity.
Defined.

(** [set_target] to 42.5 km and [set_speed] to 250 m/s, and [set_target]
    to the least integer that [float] refuses. *)
Lemma set_target_set_speed_clamp_witness :
  (exists t : float,
     send_command no_strings (cmd_with set_target "km" (PyFloat 42.5)) World0
       = Ok (mkWorld (mkState 0 0 0 CLOSED false t IDLE) 20 [] 0%nat)
     /\ (t ==? clamp 42.5 (lit 0) (lit 100))%num = true)
  /\ (exists t : float,
     send_command no_strings (cmd_with set_speed "ms" (PyInt 250)) World0
       = Ok (mkWorld (mkState 0 0 0 CLOSED false 0 IDLE) t [] 0%nat)
     /\ (t ==? clamp 250 (lit 0) (lit 200))%num = true)
  /\ send_command no_strings (cmd_with set_target "km" (PyInt first_refused)) moving_at_20
     = Raised OverflowError moving_at_20.
Proof.
  split; [|split].
  - refine (proj1 (set_target_set_speed_clamp no_strings)
             (cmd_with set_target "km" (PyFloat 42.5)) World0 (PyFloat 42.5) 42.5
             _ _ _ _); reflexivity.
  - refine (proj1 (proj2 (set_target_set_speed_clamp no_strings))
             (cmd_with set_speed "ms" (PyInt 250)) World0 (PyInt 250) 250
             _ _ _ _); reflexivity.
  - refine (proj2 (proj2 (proj2 (proj2 (set_target_set_speed_clamp no_strings)))
             (cmd_with set_target "km" (PyInt first_refused)) moving_at_20
             first_refused (or_introl (conj eq_refl eq_refl))) _).
    vm_compute. discriminate.
Defined.


(** Seven ticks of a cabin that has arrived at kilometre 30. *)
Lemma arrived_position_is_fixed_witness :
  position_km (STATE (sim_loop 7 arrived_at_30)) = 30.
Proof.
  apply (arrived_position_is_fixed arrived_at_30 7); reflexivity.
Defined.



(** The cabin after twenty thousand ticks. *)
Lemma cabin_stalls_short_of_target_witness :
  position_km (STATE (sim_loop (Z.to_nat 20000) (started no_strings))) = stall_position.
Proof.
  apply (proj2 (proj2 (proj2
           (cabin_stalls_short_of_target no_strings (Z.to_nat 20000))))).
  apply Nat.leb_le. vm_compute. reflexivity.
Defined.

(** The bounds at the end of the run that lowers the setpoint. *)
Lemma reachable_bounds_witness :
  ((lit 0 <=? position_km (STATE lowered_setpoint))%num = true
   /\ (position_km (STATE lowered_setpoint) <=? lit 100)%num = true
   /\ (lit 0 <=? target_km (STATE lowered_setpoint))%num = true
   /\ (target_km (STATE lowered_setpoint) <=? lit 100)%num = true
   /\ (lit 0 <=? SETPOINT_MS lowered_setpoint)%num = true
   /\ (SETPOINT_MS lowered_setpoint <=? lit 200)%num = true
   /\ (nabs (speed_ms (STATE lowered_setpoint)) <=? lit 200)%num = true)
  /\ (nabs (speed_ms (STATE (tick lowered_setpoint)))
      <=? SETPOINT_MS (tick lowered_setpoint))%num = true.
Proof.
  apply (reachable_bounds no_strings lowered_setpoint).
  exists lowered_setpoint_trace. vm_compute. reflexivity.
Defined.

(** A command of each kind that is refused, ignored or clamped. *)
Lemma send_command_ok_unless_float_raises_witness :
  send_command no_strings (cmd_with set_target "km" (PyStr "far")) moving_at_20
    = Raised ValueError moving_at_20
  /\ send_command no_strings (cmd set_doors) moving_at_20 = Ok moving_at_20
  /\ exists w' : World float,
       send_command no_strings (cmd_with set_target "km" (PyFloat 1e9)) moving_at_20
         = Ok w'
       /\ ((lit 100 <? 1e9)%num = true -> target_km (STATE w') = lit 100)
       /\ ((1e9 <? lit 0)%num = true -> target_km (STATE w') = lit 0).
Proof.
  split; [|split].
  - refine (proj1 (proj1 (proj2 (proj2 (proj2 (proj2
             (send_command_ok_unless_float_raises no_strings
                (cmd_with set_target "km" (PyStr "far")) moving_at_20))))) eq_refl)
             ValueError _).
    reflexivity.
  - refine (proj1 (proj2 (proj2 (send_command_ok_unless_float_raises no_strings
             (cmd set_doors) moving_at_20))) _ _).
    + reflexivity.
    + vm_compute. reflexivity.
  - refine (proj2 (proj1 (proj2 (proj2 (proj2 (proj2
             (send_command_ok_unless_float_raises no_strings
                (cmd_with set_target "km" (PyFloat 1e9)) moving_at_20))))) eq_refl)
             1e9 _).
    reflexivity.
Defined.

(** The target and the setpoint after the run that lowers the setpoint. *)
Lemma reachable_target_setpoint_bounds_witness :
  target_setpoint_bounds
    (world_of (send_command no_strings (cmd_with set_speed "ms" (PyInt 10))
                 moving_at_20)) = true.
Proof.
  apply (reachable_target_setpoint_bounds no_strings).
  exists lowered_setpoint_trace. vm_compute. reflexivity.
Defined.

End Witnesses.

(** * The broadcast hub *)

Section HubProperties.
Context {num : Type} {N : Num num}.

Local Abbreviation Frame := (Frame num).
Local Abbreviation Sent := (Sent num).
Local Abbreviation World := (World num).

Lemma send_to_each_filter (delivers : WebSocket -> bool) (text : Frame)
  (cs : list WebSocket) :
  send_to_each delivers text cs
  = (map (fun ws => (ws, text)) (filter delivers cs),
     filter (fun ws => negb (delivers ws)) cs).
Proof.
  induction cs as [|ws cs IH]; simpl; [reflexivity|].
  rewrite IH. destruct (delivers ws); reflexivity.
Qed.

(** Removing a connection that stands behind connections other than it. *)
Lemma remove_quietly_behind (pre cs : list WebSocket) (ws : WebSocket) :
  ~ In ws pre -> remove_quietly (pre ++ ws :: cs) ws = pre ++ cs.
Proof.
  unfold remove_quietly. intros Hpre.
  assert (H : list_remove ws (pre ++ ws :: cs) = Some (pre ++ cs)).
  { induction pre as [|y pre IH]; simpl.
    - rewrite Nat.eqb_refl. reflexivity.
    - destruct (Nat.eqb y ws) eqn:E.
      + apply Nat.eqb_eq in E. exfalso. apply Hpre. left. exact E.
      + rewrite IH; [reflexivity|]. intros Hin. apply Hpre. right. exact Hin. }
  rewrite H. reflexivity.
Qed.

Lemma remove_quietly_absent (cs : list WebSocket) (ws : WebSocket) :
  ~ In ws cs -> remove_quietly cs ws = cs.
Proof.
  unfold remove_quietly. intros Hn.
  assert (H : list_remove ws cs = None).
  { induction cs as [|y cs IH]; simpl; [reflexivity|].
    destruct (Nat.eqb y ws) eqn:E.
    - apply Nat.eqb_eq in E. exfalso. apply Hn. left. exact E.
    - rewrite IH; [reflexivity|]. intros Hin. apply Hn. right. exact Hin. }
  rewrite H. reflexivity.
Qed.

(** The second loop of [broadcast] takes out exactly the connections that
    failed, whatever stands in front of them. *)
Lemma remove_dead (delivers : WebSocket -> bool) (cs pre : list WebSocket) :
  Forall (fun ws => delivers ws = true) pre ->
  fold_left remove_quietly (filter (fun ws => negb (delivers ws)) cs) (pre ++ cs)
  = pre ++ filter delivers cs.
Proof.
  revert pre. induction cs as [|ws cs IH]; intros pre Hpre; simpl.
  - reflexivity.
  - destruct (delivers ws) eqn:E; simpl.
    + replace (pre ++ ws :: cs) with ((pre ++ [ws]) ++ cs)
        by (rewrite <- app_assoc; reflexivity).
      rewrite IH.
      * rewrite <- app_assoc. reflexivity.
      * apply Forall_app. split; [exact Hpre|]. constructor; [exact E | constructor].
    + rewrite remove_quietly_behind.
      * apply IH. exact Hpre.
      * intros Hin. rewrite Forall_forall in Hpre. apply Hpre in Hin. congruence.
Qed.

Lemma broadcast_filter (delivers : WebSocket -> bool) (msg : Frame)
  (CLIENTS : list WebSocket) :
  broadcast delivers msg CLIENTS
  = (filter delivers CLIENTS, map (fun ws => (ws, msg)) (filter delivers CLIENTS)).
Proof.
  unfold broadcast. rewrite send_to_each_filter.
  exact (f_equal (fun r => (r, _)) (remove_dead delivers CLIENTS [] (Forall_nil _))).
Qed.

(** A broadcast that no other task interleaves with sends the frame once,
    in the order of [CLIENTS], to each connection whose send succeeds, and
    leaves in [CLIENTS] exactly those connections, in their order. *)
Theorem broadcast_reaches_and_prunes (delivers : WebSocket -> bool) (msg : Frame)
  (CLIENTS : list WebSocket) :
  fst (broadcast delivers msg CLIENTS) = filter delivers CLIENTS /\
  snd (broadcast delivers msg CLIENTS)
  = map (fun ws => (ws, msg)) (filter delivers CLIENTS).
Proof.
  rewrite broadcast_filter. split; reflexivity.
Qed.

Lemma frames_to_map (ws : WebSocket) (msg : Frame) (cs : list WebSocket) :
  frames_to ws (map (fun c => (c, msg)) cs) = repeat msg (count_occ Nat.eq_dec cs ws).
Proof.
  unfold frames_to. induction cs as [|c cs IH]; simpl; [reflexivity|].
  destruct (Nat.eq_dec c ws) as [->|Hne].
  - rewrite Nat.eqb_refl. simpl. f_equal. exact IH.
  - apply Nat.eqb_neq in Hne. rewrite Hne. exact IH.
Qed.

(** A connection on which a broadcast failed is no longer in [CLIENTS]
    and is sent nothing by the broadcasts that follow, whether or not it
    would accept them; and a broadcast repeated under the same conditions
    removes nobody. *)
Theorem failed_connection_is_dropped (d1 d2 : WebSocket -> bool) (m1 m2 : Frame)
  (CLIENTS : list WebSocket) :
  (forall ws : WebSocket,
     d1 ws = false ->
     ~ In ws (fst (broadcast d1 m1 CLIENTS))
     /\ frames_to ws (snd (broadcast d2 m2 (fst (broadcast d1 m1 CLIENTS)))) = [])
  /\ fst (broadcast d1 m2 (fst (broadcast d1 m1 CLIENTS)))
     = fst (broadcast d1 m1 CLIENTS).
Proof.
  rewrite !broadcast_filter. simpl. split.
  - intros ws Hd.
    assert (Hn : ~ In ws (filter d1 CLIENTS)).
    { intros Hin. apply filter_In in Hin. destruct Hin as [_ Hin]. congruence. }
    split; [exact Hn|].
    rewrite ?broadcast_filter. simpl. rewrite frames_to_map.
    rewrite (proj1 (count_occ_not_In Nat.eq_dec _ ws)); [reflexivity|].
    intros Hin. apply filter_In in Hin. destruct Hin as [Hin _]. exact (Hn Hin).
  - rewrite ?broadcast_filter. simpl.
    induction CLIENTS as [|c cs IH]; simpl; [reflexivity|].
    destruct (d1 c) eqn:E; simpl; [rewrite E, IH; reflexivity | exact IH].
Qed.

(** A connection that opens and closes leaves [CLIENTS] as it found it;
    closing one that is not registered (a broadcast removed it) changes
    nothing. *)
Theorem connection_round_trip (delivers : WebSocket -> bool) (ws : WebSocket)
  (w : World) (CLIENTS : list WebSocket) :
  ~ In ws CLIENTS ->
  ws_telemetry_close ws (fst (fst (ws_telemetry_open delivers ws w CLIENTS))) = CLIENTS
  /\ ws_telemetry_close ws CLIENTS = CLIENTS.
Proof.
  intros Hn. unfold ws_telemetry_close, ws_telemetry_open. split.
  - destruct (delivers ws); simpl;
      rewrite (remove_quietly_behind CLIENTS [] ws Hn); apply app_nil_r.
  - apply remove_quietly_absent. exact Hn.
Qed.

(** A connection whose first frame fails is registered all the same, its
    handler being over before the [try] that would remove it: it stays in
    [CLIENTS] until a broadcast fails on it. *)
Theorem failed_first_frame_stays_until_broadcast (delivers : WebSocket -> bool)
  (ws : WebSocket) (w : World) (msg : Frame) (CLIENTS : list WebSocket) :
  delivers ws = false ->
  ws_telemetry_open delivers ws w CLIENTS = (CLIENTS ++ [ws], [], false)
  /\ In ws (fst (fst (ws_telemetry_open delivers ws w CLIENTS)))
  /\ fst (broadcast delivers msg (fst (fst (ws_telemetry_open delivers ws w CLIENTS))))
     = filter delivers CLIENTS.
Proof.
  intros Hd. unfold ws_telemetry_open. rewrite Hd. simpl.
  split; [reflexivity|]. split.
  - apply in_or_app. right. left. reflexivity.
  - rewrite broadcast_filter. simpl.
    rewrite filter_app. simpl. rewrite Hd. apply app_nil_r.
Qed.

End HubProperties.

Section HubInterleaving.
Context {num : Type} {N : Num num}.
Local Open Scope nat_scope.

Local Abbreviation Frame := (Frame num).
Local Abbreviation Sent := (Sent num).
Local Abbreviation World := (World num).

(** The iterator walks over a stretch of [CLIENTS] during which no other
    task runs. *)
Lemma first_loop_stretch (delivers : WebSocket -> bool)
  (during : nat -> list RegistryEvent) (text : Frame)
  (mid pre rest : list WebSocket) (fuel : nat) (sent : list Sent)
  (dead : list WebSocket) :
  (forall j, List.length pre <= j < List.length pre + List.length mid -> during j = []) ->
  first_loop delivers during text (List.length mid + fuel) (List.length pre)
    (pre ++ mid ++ rest) sent dead
  = first_loop delivers during text fuel (List.length pre + List.length mid)
      (pre ++ mid ++ rest)
      (sent ++ map (fun ws => (ws, text)) (filter delivers mid))
      (dead ++ filter (fun ws => negb (delivers ws)) mid).
Proof.
  revert pre sent dead.
  induction mid as [|m mid IH]; intros pre sent dead Hq; simpl.
  - rewrite Nat.add_0_r, !app_nil_r. reflexivity.
  - rewrite nth_error_app2 by lia. rewrite Nat.sub_diag. simpl.
    rewrite (Hq (List.length pre)) by (simpl; lia). simpl.
    replace (pre ++ m :: mid ++ rest) with ((pre ++ [m]) ++ mid ++ rest)
      by (rewrite <- app_assoc; reflexivity).
    replace (S (List.length pre)) with (List.length (pre ++ [m]))
      by (rewrite length_app; simpl; lia).
    assert (Hq' : forall j,
               List.length (pre ++ [m]) <= j
                 < List.length (pre ++ [m]) + List.length mid ->
               during j = []).
    { intros j Hj. apply Hq. rewrite length_app in Hj. simpl in *. lia. }
    destruct (delivers m); simpl; rewrite (IH _ _ _ Hq');
      (f_equal; try (rewrite length_app; simpl; lia);
       rewrite <- app_assoc; reflexivity).
Qed.

(** With no other task running during the awaits, the iterator's loop is
    the loop of [broadcast]. *)
Lemma broadcast_during_nothing (delivers : WebSocket -> bool) (msg : Frame)
  (CLIENTS : list WebSocket) :
  broadcast_during delivers (fun _ => []) (S (List.length CLIENTS)) msg CLIENTS
  = Some (broadcast delivers msg CLIENTS).
Proof.
  unfold broadcast_during, broadcast.
  replace (S (List.length CLIENTS)) with (List.length CLIENTS + 1) by lia.
  pose proof (first_loop_stretch delivers (fun _ => []) msg CLIENTS [] [] 1 [] []
                (fun _ _ => eq_refl)) as H.
  cbn [app List.length Nat.add] in H. rewrite app_nil_r in H. rewrite H.
  cbn [first_loop].
  rewrite (proj2 (nth_error_None CLIENTS (List.length CLIENTS))) by lia.
  rewrite send_to_each_filter. reflexivity.
Qed.

Lemma filter_all (delivers : WebSocket -> bool) (l : list WebSocket) :
  (forall ws, delivers ws = true) ->
  filter delivers l = l /\ filter (fun ws => negb (delivers ws)) l = [].
Proof.
  intros Hall. induction l as [|c l [IH1 IH2]]; simpl; [split; reflexivity|].
  rewrite Hall. simpl. rewrite IH1, IH2. split; reflexivity.
Qed.

(** When the connection [a] closes while the broadcast awaits the send to
    it, the iterator of [for ws in CLIENTS] steps over the next
    connection [b]: every other connection gets the frame, [b] gets none,
    though its send would succeed and it stays registered. *)
Theorem disconnect_during_broadcast_skips_next (delivers : WebSocket -> bool)
  (msg : Frame) (l1 l2 : list WebSocket) (a b : WebSocket) :
  (forall ws, delivers ws = true) ->
  ~ In a l1 ->
  broadcast_during delivers
    (fun index => if Nat.eqb index (List.length l1) then [Disconnects a] else [])
    (S (List.length (l1 ++ a :: b :: l2))) msg (l1 ++ a :: b :: l2)
  = Some (l1 ++ b :: l2, map (fun ws => (ws, msg)) (l1 ++ a :: l2)).
Proof.
  intros Hall Ha. unfold broadcast_during.
  set (during := fun index => if Nat.eqb index (List.length l1) then [Disconnects a] else []).
  assert (Hquiet : forall j, j <> List.length l1 -> during j = []).
  { intros j Hj. unfold during. destruct (Nat.eqb j (List.length l1)) eqn:E;
      [apply Nat.eqb_eq in E; contradiction | reflexivity]. }
  assert (Hd : during (List.length l1) = [Disconnects a])
    by (unfold during; rewrite Nat.eqb_refl; reflexivity).
  replace (S (List.length (l1 ++ a :: b :: l2)))
    with (List.length l1 + S (List.length l2 + 2))
    by (rewrite length_app; simpl; lia).
  pose proof (first_loop_stretch delivers during msg l1 [] (a :: b :: l2)
                (S (List.length l2 + 2)) [] []) as H1.
  destruct (filter_all delivers l1 Hall) as [F1 F1'].
  rewrite F1, F1' in H1. cbn [app List.length Nat.add] in H1.
  rewrite H1 by (intros j Hj; apply Hquiet; lia). clear H1.
  cbn [first_loop]. rewrite nth_error_app2 by lia. rewrite Nat.sub_diag.
  cbn [nth_error]. rewrite Hall, Hd. cbn [fold_left registry_event].
  rewrite (remove_quietly_behind l1 (b :: l2) a Ha).
  pose proof (first_loop_stretch delivers during msg l2 (l1 ++ [b]) []
                2 (map (fun ws => (ws, msg)) l1 ++ [(a, msg)]) []) as H2.
  destruct (filter_all delivers l2 Hall) as [F2 F2'].
  rewrite F2, F2' in H2.
  rewrite app_nil_r, <- app_assoc, length_app in H2.
  cbn [app List.length] in H2.
  replace (List.length l1 + 1) with (S (List.length l1)) in H2 by lia.
  lazymatch type of H2 with
  | _ -> ?L = _ =>
      match goal with
      | |- context [first_loop ?f1 ?f2 ?f3 ?f4 ?f5 ?f6 ?f7 ?f8] =>
          change (first_loop f1 f2 f3 f4 f5 f6 f7 f8) with L
      end
  end.
  rewrite H2 by (intros j Hj; apply Hquiet; lia). clear H2.
  assert (Hnone : nth_error (l1 ++ b :: l2) (S (List.length l1) + List.length l2) = None)
    by (apply nth_error_None; rewrite length_app; simpl; lia).
  cbn [first_loop]. rewrite Hnone. cbn [fold_left].
  rewrite map_app. cbn [map]. rewrite <- app_assoc. reflexivity.
Qed.

End HubInterleaving.

Section Frames.
Context {num : Type} {N : Num num}.
Local Open Scope nat_scope.

Local Abbreviation Frame := (Frame num).
Local Abbreviation Sent := (Sent num).
Local Abbreviation World := (World num).
Local Abbreviation Parcel := (Parcel num).







End Frames.

(** * The state machine *)

Section StateMachine.
Context {num : Type} {N : Num num}.
Local Open Scope num_scope.
Variable float_of_str : string -> option num.

Local Abbreviation State := (State num).
Local Abbreviation Parcel := (Parcel num).
Local Abbreviation World := (World num).
Local Abbreviation dict := (dict num).
Local Abbreviation Command := (Command num).
Local Abbreviation Event := (Event num).
Local Abbreviation send_command := (send_command float_of_str).
Local Abbreviation step := (step float_of_str).
Local Abbreviation run := (run float_of_str).
Local Abbreviation Reachable := (Reachable float_of_str).

(** What a tick can do to [running] and [cabin]. *)
Lemma tick_mode (w : World) :
  (running (STATE w) = true
   /\ running (STATE (tick w)) = true /\ cabin (STATE (tick w)) = MOVING)
  \/ (running (STATE w) = true
      /\ running (STATE (tick w)) = false /\ cabin (STATE (tick w)) = IDLE)
  \/ (running (STATE w) = true
      /\ running (STATE (tick w)) = true
      /\ cabin (STATE (tick w)) = cabin (STATE w))
  \/ (running (STATE w) = false
      /\ running (STATE (tick w)) = false /\ cabin (STATE (tick w)) = IDLE).
Proof.
  destruct w as [[pos sp pl d r tg cb] set ps n]. unfold tick. simpl.
  destruct r; simpl.
  - destruct (negb (doors_open d) && _) eqn:Hm; simpl.
    + match goal with |- context [if ?b then _ else _] => destruct b end; simpl; auto.
    + auto 6.
  - auto 6.
Qed.

Lemma tick_pending (w : World) :
  pending_clear_error (tick w) = pending_clear_error w.
Proof.
  unfold tick.
  repeat match goal with |- context [if ?b then _ else _] => destruct b end;
    reflexivity.
Qed.

Lemma step_mode_coherent (e : Event) (w w' : World) :
  mode_coherent w -> step e w = Some w' -> mode_coherent w'.
Proof.
  unfold mode_coherent. intros [Hrun Herr] Hs.
  destruct e as [c| | |p]; simpl in Hs.
  - inversion Hs; subst w'; clear Hs. unfold send_command.
    destruct (action c); simpl.
    + destruct (doors_open (doors (STATE w))); simpl.
      * split; assumption.
      * split; [split; reflexivity | discriminate].
    + split; [split; discriminate | discriminate].
    + split; [split; discriminate | intros _; lia].
    + destruct (_ <? _); simpl; split; assumption.
    + destruct (py_float float_of_str _); simpl; split; assumption.
    + destruct (py_float float_of_str _); simpl; split; assumption.
    + destruct (load_first_queued _) as [[ps kg]|]; simpl; split; assumption.
  - inversion Hs; subst w'; clear Hs. rewrite tick_pending.
    destruct (tick_mode w) as [(H0 & H1 & H2)|[(H0 & H1 & H2)|[(H0 & H1 & H2)|(H0 & H1 & H2)]]];
      rewrite H1, H2.
    + split; [split; reflexivity | discriminate].
    + split; [split; discriminate | discriminate].
    + split; [|exact Herr]. split; [intros _; apply Hrun; exact H0 | reflexivity].
    + split; [split; discriminate | discriminate].
  - destruct (pending_clear_error w) as [|k] eqn:Hp; [discriminate|].
    inversion Hs; subst w'; clear Hs. unfold clear_error. simpl.
    destruct (cabin (STATE w)) eqn:Hc; simpl; rewrite ?Hc.
    + split; [exact Hrun | discriminate].
    + split; [exact Hrun | discriminate].
    + split; [|discriminate]. split; [|discriminate].
      intros Hr. apply Hrun in Hr. discriminate.
  - inversion Hs; subst w'; clear Hs. simpl. split; assumption.
Qed.

(** In every reachable state the cabin is in mode MOVING exactly when it
    is running (even when it stands still), and in mode ERROR only while
    it is not running and a recovery task is pending. *)
Theorem reachable_mode_agrees_with_running (w : World) :
  Reachable w ->
  (running (STATE w) = true <-> cabin (STATE w) = MOVING)
  /\ (cabin (STATE w) = ERROR ->
      running (STATE w) = false /\ (1 <= pending_clear_error w)%nat).
Proof.
  intros [es Hr].
  assert (H : mode_coherent w).
  { assert (H0 : mode_coherent (World0 : World))
      by (split; [split; discriminate | discriminate]).
    revert Hr H0. generalize (World0 : World).
    induction es as [|e es IH]; intros w0 Hr H0; simpl in Hr.
    - inversion Hr. subst. exact H0.
    - destruct (step e w0) as [w1|] eqn:Hs; [|discriminate].
      apply (IH w1 Hr). apply (step_mode_coherent e w0); assumption. }
  destruct H as [Hrun Herr]. split; [exact Hrun|].
  intros He. split; [|apply Herr; exact He].
  destruct (running (STATE w)) eqn:E; [|reflexivity].
  destruct Hrun as [Hrun _]. rewrite Hrun in He by reflexivity. discriminate.
Qed.

(** A tick with the doors open moves nothing and leaves them open. *)
Lemma tick_doors_open (w : World) :
  doors (STATE w) = OPEN ->
  doors (STATE (tick w)) = OPEN
  /\ position_km (STATE (tick w)) = position_km (STATE w)
  /\ speed_ms (STATE (tick w)) = lit 0.
Proof.
  intros Hd. unfold tick. rewrite Hd. simpl. rewrite andb_false_r. simpl.
  destruct (negb (running (STATE w))); simpl; auto.
Qed.

(** While the doors are OPEN the loop does not move the cabin, running or
    not: after any number of ticks [position_km] is what it was and, from
    the first tick on, [speed_ms] is 0. *)
Theorem open_doors_hold_the_cabin (w : World) (n : nat) :
  doors (STATE w) = OPEN ->
  position_km (STATE (sim_loop n w)) = position_km (STATE w)
  /\ doors (STATE (sim_loop n w)) = OPEN
  /\ ((1 <= n)%nat -> speed_ms (STATE (sim_loop n w)) = lit 0).
Proof.
  revert w. induction n as [|n IH]; intros w Hd.
  - simpl. split; [reflexivity|]. split; [exact Hd|]. intros H. lia.
  - destruct (tick_doors_open w Hd) as (Hd' & Hp & Hs).
    destruct (IH (tick w) Hd') as (IH1 & IH2 & IH3). simpl.
    split; [rewrite IH1; exact Hp|]. split; [exact IH2|].
    intros _. destruct n as [|n]; [exact Hs | apply IH3; lia].
Qed.

(** [stop] and [emergency_stop] halt the cabin where it is: after either,
    no number of ticks changes [position_km], and from the first tick on
    [speed_ms] is 0 and [cabin] is IDLE. *)
Theorem stop_halts_the_cabin (c : Command) (w : World) (n : nat) :
  action c = stop \/ action c = emergency_stop ->
  position_km (STATE (sim_loop n (world_of (send_command c w))))
    = position_km (STATE w)
  /\ running (STATE (sim_loop n (world_of (send_command c w)))) = false
  /\ ((1 <= n)%nat ->
      speed_ms (STATE (sim_loop n (world_of (send_command c w)))) = lit 0
      /\ cabin (STATE (sim_loop n (world_of (send_command c w)))) = IDLE).
Proof.
  intros Ha.
  assert (H0 : position_km (STATE (world_of (send_command c w))) = position_km (STATE w)
               /\ running (STATE (world_of (send_command c w))) = false).
  { unfold send_command. destruct Ha as [-> | ->]; simpl; auto. }
  destruct H0 as [Hp Hr]. rewrite <- Hp. clear Hp Ha.
  generalize dependent (world_of (send_command c w)). clear w c.
  intros w Hr. revert w Hr.
  induction n as [|n IH]; intros w Hr.
  - simpl. split; [reflexivity|]. split; [exact Hr|]. intros H. lia.
  - simpl. pose proof (tick_not_running w Hr) as Ht.
    assert (Hr' : running (STATE (tick w)) = false) by (rewrite Ht; exact Hr).
    destruct (IH (tick w) Hr') as (IH1 & IH2 & IH3).
    split; [rewrite IH1, Ht; reflexivity|]. split; [exact IH2|].
    intros _. destruct n as [|n]; [rewrite Ht; simpl; auto | apply IH3; lia].
Qed.

(** *** The band around the target *)

(** A tick that finds the cabin running but not farther than 0.01 km from
    its target changes nothing but the speed. *)
Lemma tick_near_target (w : World) :
  running (STATE w) = true ->
  (nabs (target_km (STATE w) - position_km (STATE w)) >? lit 0.01) = false ->
  tick w = with_STATE (set_speed_ms (lit 0) (STATE w)) w.
Proof.
  intros Hr Hn. unfold tick. rewrite Hr, Hn, andb_false_r.
  cbn [running set_speed_ms]. rewrite Hr. reflexivity.
Qed.

(** A running cabin that a tick finds within 0.01 km of its target (the
    test [abs(target_km - position_km) > 0.01] fails) is never moved and
    never stopped by the loop: after any number of ticks [position_km],
    [running = true] and [cabin] are what they were, and from the first
    tick on [speed_ms] is 0.  So a [start] sent when the target is already
    reached, or a run that comes to rest between 0.005 and 0.01 km from the
    target, leaves the cabin in mode MOVING for good. *)
Theorem near_target_never_arrives (w : World) (n : nat) :
  running (STATE w) = true ->
  (nabs (target_km (STATE w) - position_km (STATE w)) >? lit 0.01) = false ->
  position_km (STATE (sim_loop n w)) = position_km (STATE w)
  /\ running (STATE (sim_loop n w)) = true
  /\ cabin (STATE (sim_loop n w)) = cabin (STATE w)
  /\ ((1 <= n)%nat -> speed_ms (STATE (sim_loop n w)) = lit 0).
Proof.
  revert w. induction n as [|n IH]; intros w Hr Hn.
  - simpl. repeat split; try assumption. intros H. lia.
  - pose proof (tick_near_target w Hr Hn) as Ht.
    destruct (IH (tick w)) as (I1 & I2 & I3 & I4).
    + rewrite Ht. exact Hr.
    + rewrite Ht. exact Hn.
    + cbn [sim_loop]. rewrite I1, I2, I3, Ht. rewrite Ht in I4.
      cbn [STATE with_STATE set_speed_ms position_km cabin]. repeat split.
      intros _. destruct n as [|n]; [reflexivity | apply I4; lia].
Qed.

(** *** The warehouse *)

(** The warehouse is a stack: [add_parcel] puts the parcel in front, so a
    QUEUED parcel just added is the one the next [load_from_warehouse]
    loads, ahead of every parcel queued before it. *)
Theorem newest_parcel_is_loaded_first (payload : option dict) (p : Parcel) (w : World) :
  status p = QUEUED ->
  send_command (mkCommand load_from_warehouse payload) (add_parcel p w)
  = Ok (mkWorld
          (mkState (position_km (STATE w)) (speed_ms (STATE w))
                   (payload_kg (STATE w) + weight_kg p) (doors (STATE w))
                   (running (STATE w)) (target_km (STATE w)) (cabin (STATE w)))
          (SETPOINT_MS w)
          (mkParcel (id p) (weight_kg p) (destination_km p) LOADED :: PARCELS w)
          (pending_clear_error w)).
Proof.
  intros Hp. unfold send_command, add_parcel. simpl. rewrite Hp. reflexivity.
Qed.

Lemma load_first_queued_counts (ps ps' : list Parcel) (kg : num) :
  load_first_queued ps = Some (ps', kg) ->
  List.length ps' = List.length ps
  /\ map id ps' = map id ps
  /\ map weight_kg ps' = map weight_kg ps
  /\ S (count_queued ps') = count_queued ps.
Proof.
  revert ps' kg. induction ps as [|q ps IH]; intros ps' kg H; simpl in H.
  - discriminate.
  - unfold count_queued in *. destruct (status q) eqn:E;
      [ inversion H; subst; simpl; rewrite E; simpl; auto | .. ];
      (destruct (load_first_queued ps) as [[r k]|] eqn:El; [|discriminate];
       inversion H; subst; simpl; rewrite E;
       destruct (IH r kg eq_refl) as (H1 & H2 & H3 & H4);
       rewrite H1, H2, H3; auto).
Qed.

End StateMachine.

Section StateMachineLoads.
Context {num : Type} {N : Num num}.
Local Open Scope num_scope.
Variable float_of_str : string -> option num.

Local Abbreviation Parcel := (Parcel num).
Local Abbreviation World := (World num).
Local Abbreviation send_command := (send_command float_of_str).

Lemma load_first_queued_none_counts (ps : list Parcel) :
  load_first_queued ps = None -> count_queued ps = 0%nat.
Proof.
  unfold count_queued. induction ps as [|q ps IH]; intros H; simpl in *.
  - reflexivity.
  - destruct (status q); try discriminate;
      (destruct (load_first_queued ps) as [[r k]|]; [discriminate|]);
      apply IH; reflexivity.
Qed.

(** [load_from_warehouse] sent [n] times takes [n] parcels out of the
    QUEUED ones (all of them when there are fewer), and never adds, drops,
    reorders or reweighs a parcel. *)
Theorem loads_drain_the_queue (n : nat) (w : World) :
  count_queued (PARCELS (send_commands float_of_str
                           (repeat (cmd load_from_warehouse) n) w))
    = (count_queued (PARCELS w) - n)%nat
  /\ map id (PARCELS (send_commands float_of_str
                        (repeat (cmd load_from_warehouse) n) w))
     = map id (PARCELS w)
  /\ map weight_kg (PARCELS (send_commands float_of_str
                               (repeat (cmd load_from_warehouse) n) w))
     = map weight_kg (PARCELS w).
Proof.
  revert w. induction n as [|n IH]; intros w; simpl.
  - rewrite Nat.sub_0_r. auto.
  - destruct (IH (world_of (send_command (cmd load_from_warehouse) w)))
      as (H1 & H2 & H3).
    rewrite H1, H2, H3. clear IH H1 H2 H3.
    unfold send_command. simpl.
    destruct (load_first_queued (PARCELS w)) as [[ps kg]|] eqn:E; simpl.
    + destruct (load_first_queued_counts (PARCELS w) ps kg E) as (_ & Hi & Hw & Hc).
      rewrite Hi, Hw, <- Hc. auto.
    + rewrite (load_first_queued_none_counts (PARCELS w) E). auto.
Qed.

End StateMachineLoads.

(** Unfold the record updates, and nothing of the arithmetic. *)
Ltac w_simpl :=
  cbn [world_of STATE SETPOINT_MS PARCELS pending_clear_error with_STATE
       set_cabin set_running set_doors_field set_target_km set_payload_kg
       set_speed_ms set_position_km position_km speed_ms payload_kg doors
       running target_km cabin] in *.

Section Binary64Invariants.
Import Float64.
Local Open Scope float_scope.
Variable float_of_str : string -> option float.

Local Abbreviation World := (World float).
Local Abbreviation Command := (Command float).
Local Abbreviation Event := (Event float).
Local Abbreviation send_command := (send_command float_of_str).
Local Abbreviation step := (step float_of_str).
Local Abbreviation Reachable := (Reachable float_of_str).

Lemma tick_doors (w : World) : doors (STATE (tick w)) = doors (STATE w).
Proof.
  unfold tick.
  repeat match goal with |- context [if ?b then _ else _] => destruct b end;
    reflexivity.
Qed.

Lemma step_doors_open_slow (e : Event) (w w' : World) :
  doors_open_slow w -> step e w = Some w' -> doors_open_slow w'.
Proof.
  unfold doors_open_slow. intros H Hs.
  destruct e as [c| | |p]; simpl in Hs.
  - inversion Hs; subst w'; clear Hs. unfold send_command.
    destruct (action c); w_simpl; try exact H.
    + destruct (negb _); w_simpl; exact H.
    + destruct (nabs (speed_ms (STATE w)) <? lit 0.1)%num eqn:E; w_simpl.
      * intros _. exact E.
      * intros Hd. specialize (H Hd). congruence.
    + destruct (py_float float_of_str _); w_simpl; exact H.
    + destruct (py_float float_of_str _); w_simpl; exact H.
    + destruct (load_first_queued _) as [[ps kg]|]; w_simpl; exact H.
  - inversion Hs; subst w'; clear Hs. rewrite tick_doors. intros Hd.
    destruct (tick_doors_open w Hd) as (_ & _ & Hsp). rewrite Hsp. reflexivity.
  - destruct (pending_clear_error w) as [|k]; [discriminate|].
    inversion Hs; subst w'; clear Hs. unfold clear_error. w_simpl.
    destruct (cabin_eqb _ _); w_simpl; exact H.
  - inversion Hs; subst w'; clear Hs. exact H.
Qed.

(** On binary64, in every reachable state with the doors OPEN the cabin's
    speed is below 0.1 m/s in magnitude: doors open only at such a speed,
    and no tick speeds the cabin up while they are open. *)
Theorem reachable_open_doors_slow (w : World) :
  Reachable w ->
  doors (STATE w) = OPEN ->
  (nabs (speed_ms (STATE w)) <? lit 0.1)%num = true.
Proof.
  intros [es Hr].
  assert (H0 : doors_open_slow (World0 : World)) by (intros H; discriminate H).
  revert Hr H0. generalize (World0 : World).
  induction es as [|e es IH]; intros w0 Hr H0; simpl in Hr.
  - inversion Hr. subst. exact H0.
  - destruct (step e w0) as [w1|] eqn:Hs; [|discriminate].
    apply (IH w1 Hr). apply (step_doors_open_slow e w0); assumption.
Qed.

(** *** The setpoint, when [ms] is missing *)

(** Below or equal but not below: equal, for a positive finite bound. *)
Lemma leb_not_ltb_eq (a b : float) (mh : positive) (eh : Z) :
  Prim2SF b = S754_finite false mh eh ->
  (a <=? b) = true -> (a <? b) = false -> a = b.
Proof.
  intros Hb. rewrite leb_spec, ltb_spec, Hb. unfold SFleb, SFltb.
  intros Hle Hlt. apply Prim2SF_inj. rewrite Hb.
  destruct (Prim2SF a) as [s|s| |s m e]; simpl in *; try discriminate.
  - destruct s; discriminate.
  - destruct s; try discriminate.
    destruct (e ?= eh)%Z eqn:Ee; try discriminate.
    destruct (Pos.compare_cont Eq m mh) eqn:Em; try discriminate.
    apply Z.compare_eq in Ee. apply Pos.compare_eq in Em. subst. reflexivity.
Qed.

Lemma max_min_stored (x : float) : setpoint_stored (py_max 0 (py_min 200 x)).
Proof.
  unfold setpoint_stored, py_max, py_min. cbn [nltb float64].
  destruct (x <? 200) eqn:H1.
  - destruct (0 <? x) eqn:H2; [right | left; reflexivity].
    split; [exact H2 | apply ltb_leb; exact H1].
  - right. split; reflexivity.
Qed.

Lemma stored_is_kept (x : float) :
  setpoint_stored x -> py_max 0 (py_min 200 x) = x.
Proof.
  unfold py_max, py_min. cbn [nltb float64]. intros [->|[H0 H200]].
  - reflexivity.
  - destruct (x <? 200) eqn:H1.
    + rewrite H0. reflexivity.
    + symmetry. apply (leb_not_ltb_eq x 200 7036874417766400 (-45)%Z eq_refl H200 H1).
Qed.

Lemma step_setpoint_stored (e : Event) (w w' : World) :
  setpoint_stored (SETPOINT_MS w) -> step e w = Some w' ->
  setpoint_stored (SETPOINT_MS w').
Proof.
  intros H Hs. destruct e as [c| | |p]; simpl in Hs.
  - inversion Hs; subst w'; clear Hs. unfold send_command.
    destruct (action c); w_simpl; try exact H.
    + destruct (negb _); w_simpl; exact H.
    + match goal with |- context [if ?b then _ else _] => destruct b end;
        w_simpl; exact H.
    + destruct (py_float float_of_str _); w_simpl; exact H.
    + destruct (py_float float_of_str _) as [e|ms]; w_simpl; [exact H|].
      apply max_min_stored.
    + destruct (load_first_queued _) as [[ps kg]|]; w_simpl; exact H.
  - inversion Hs; subst w'; clear Hs. unfold tick.
    repeat match goal with |- context [if ?b then _ else _] => destruct b end;
      exact H.
  - destruct (pending_clear_error w) as [|k]; [discriminate|].
    inversion Hs; subst w'; clear Hs. unfold clear_error. w_simpl.
    destruct (cabin_eqb _ _); w_simpl; exact H.
  - inversion Hs; subst w'; clear Hs. exact H.
Qed.

(** On binary64, in every reachable state a [set_speed] whose payload is
    missing, or has no [ms], changes nothing: the setpoint it falls back on
    is stored again as it is. *)
Theorem set_speed_without_ms_keeps_setpoint (c : Command) (w : World) :
  Reachable w ->
  action c = set_speed ->
  dict_get "ms" (payload_or_empty c) = None ->
  send_command c w = Ok w.
Proof.
  intros [es Hr] Ha Hk.
  assert (H : setpoint_stored (SETPOINT_MS w)).
  { assert (H0 : setpoint_stored (SETPOINT_MS (World0 : World)))
      by (right; split; reflexivity).
    revert Hr H0. generalize (World0 : World).
    induction es as [|e es IH]; intros w0 Hr H0; simpl in Hr.
    - inversion Hr. subst. exact H0.
    - destruct (step e w0) as [w1|] eqn:Hs; [|discriminate].
      apply (IH w1 Hr). apply (step_setpoint_stored e w0); assumption. }
  unfold send_command, dict_get_default. rewrite Ha, Hk. cbn [py_float].
  change (@lit float _ 0) with 0. change (@lit float _ 200) with 200.
  rewrite (stored_is_kept _ H). destruct w; reflexivity.
Qed.

End Binary64Invariants.

(** * The added statements at concrete inputs *)

Section MoreWitnesses.
Import Float64.
Local Open Scope float_scope.

(** A broadcast to three connections of which the second fails, and the
    broadcast after it. *)
Lemma failed_connection_is_dropped_witness :
  ~ In 2%nat (fst (broadcast second_fails idle_frame
                     three_clients))
  /\ frames_to 2%nat
       (snd (broadcast all_deliver idle_frame
               (fst (broadcast second_fails idle_frame three_clients))))
     = [].
Proof.
  apply (proj1 (failed_connection_is_dropped second_fails all_deliver
                  idle_frame idle_frame three_clients) 2%nat).
  reflexivity.
Defined.

(** A fourth connection opens and closes. *)
Lemma connection_round_trip_witness :
  ws_telemetry_close 4%nat
    (fst (fst (ws_telemetry_open all_deliver 4%nat (World0 (num := float)) three_clients)))
    = three_clients
  /\ ws_telemetry_close 4%nat three_clients = three_clients.
Proof.
  apply (connection_round_trip all_deliver 4%nat World0 three_clients).
  intros H. repeat (destruct H as [H|H]; [discriminate H|]). exact H.
Defined.

(** The connection 2 opens when it is already gone. *)
Lemma failed_first_frame_stays_until_broadcast_witness :
  ws_telemetry_open second_fails 2%nat (World0 (num := float)) [1; 3]%nat
    = ([1; 3; 2]%nat, [], false)
  /\ In 2%nat (fst (fst (ws_telemetry_open second_fails 2%nat
                           (World0 (num := float)) [1; 3]%nat)))
  /\ fst (broadcast second_fails idle_frame
            (fst (fst (ws_telemetry_open second_fails 2%nat
                         (World0 (num := float)) [1; 3]%nat))))
     = [1; 3]%nat.
Proof.
  apply (failed_first_frame_stays_until_broadcast second_fails 2%nat World0
           idle_frame [1; 3]%nat).
  reflexivity.
Defined.

(** Connection 2 of [1; 2; 3; 4] closes while it is being sent to. *)
Lemma disconnect_during_broadcast_skips_next_witness :
  broadcast_during all_deliver
    (fun index => if Nat.eqb index 1 then [Disconnects 2%nat] else [])
    5 idle_frame [1; 2; 3; 4]%nat
  = Some ([1; 3; 4]%nat,
          [(1%nat, idle_frame); (2%nat, idle_frame);
           (4%nat, idle_frame)]).
Proof.
  apply (disconnect_during_broadcast_skips_next all_deliver idle_frame
           [1%nat] [4%nat] 2%nat 3%nat).
  - reflexivity.
  - intros [H|H]; [discriminate H | exact H].
Defined.


(** The mode of the cabin that runs with its doors open. *)
Lemma reachable_mode_agrees_with_running_witness :
  (running (STATE open_while_running) = true
   <-> cabin (STATE open_while_running) = MOVING)
  /\ (cabin (STATE open_while_running) = ERROR ->
      running (STATE open_while_running) = false
      /\ (1 <= pending_clear_error open_while_running)%nat).
Proof.
  apply (reachable_mode_agrees_with_running no_strings open_while_running).
  exists open_while_running_trace. vm_compute. reflexivity.
Defined.

(** Ten ticks of the cabin that runs with its doors open. *)
Lemma open_doors_hold_the_cabin_witness :
  position_km (STATE (sim_loop 10 open_while_running))
    = position_km (STATE open_while_running)
  /\ doors (STATE (sim_loop 10 open_while_running)) = OPEN
  /\ ((1 <= 10)%nat -> speed_ms (STATE (sim_loop 10 open_while_running)) = lit 0).
Proof.
  apply (open_doors_hold_the_cabin open_while_running 10). reflexivity.
Defined.

(** [stop] at 20 m/s, then five ticks. *)
Lemma stop_halts_the_cabin_witness :
  position_km (STATE (sim_loop 5 (world_of (send_command no_strings (cmd stop)
                                              moving_at_20))))
    = position_km (STATE moving_at_20)
  /\ running (STATE (sim_loop 5 (world_of (send_command no_strings (cmd stop)
                                             moving_at_20)))) = false
  /\ ((1 <= 5)%nat ->
      speed_ms (STATE (sim_loop 5 (world_of (send_command no_strings (cmd stop)
                                              moving_at_20)))) = lit 0
      /\ cabin (STATE (sim_loop 5 (world_of (send_command no_strings (cmd stop)
                                              moving_at_20)))) = IDLE).
Proof.
  apply (stop_halts_the_cabin no_strings (cmd stop) moving_at_20 5).
  left. reflexivity.
Defined.

(** A parcel of 3 kg added to the warehouse, then a load. *)
Lemma newest_parcel_is_loaded_first_witness :
  send_command no_strings (mkCommand load_from_warehouse None)
    (add_parcel (mkParcel "d" 3 60 QUEUED) warehouse)
  = Ok (mkWorld
          (mkState 0 0 (0 + 3) CLOSED false 0 IDLE)
          20
          [ mkParcel "d" 3 60 LOADED;
            mkParcel "a" 5 10 LOADED;
            mkParcel "b" 12.5 40 QUEUED;
            mkParcel "c" 7 40 QUEUED ]
          0%nat).
Proof.
  refine (newest_parcel_is_loaded_first no_strings None
            (mkParcel "d" 3 60 QUEUED) warehouse _).
  reflexivity.
Defined.

(** The speed of the cabin that runs with its doors open. *)
Lemma reachable_open_doors_slow_witness :
  (nabs (speed_ms (STATE open_while_running)) <? lit 0.1)%num = true.
Proof.
  apply (reachable_open_doors_slow no_strings open_while_running).
  - exists open_while_running_trace. vm_compute. reflexivity.
  - reflexivity.
Defined.

(** [set_speed] with no payload at 20 m/s. *)
Lemma set_speed_without_ms_keeps_setpoint_witness :
  send_command no_strings (cmd set_speed) moving_at_20 = Ok moving_at_20.
Proof.
  apply (set_speed_without_ms_keeps_setpoint no_strings (cmd set_speed) moving_at_20).
  - exists [Cmd (cmd_with set_target "km" (PyInt 50)); Cmd (cmd start); Tick].
    vm_compute. reflexivity.
  - reflexivity.
  - reflexivity.
Defined.

(** The distance to the target over the fourth tick after [start]. *)
Lemma ticks_never_move_away_witness :
  (nabs (target_km (STATE (sim_loop 4 (started no_strings)))
         - position_km (STATE (sim_loop 4 (started no_strings))))
   <=? nabs (target_km (STATE (sim_loop 3 (started no_strings)))
             - position_km (STATE (sim_loop 3 (started no_strings)))))%num
  = true.
Proof.
  apply (ticks_never_move_away no_strings (started no_strings) 3).
  exists [Cmd (cmd_with set_target "km" (PyInt 50)); Cmd (cmd start)].
  vm_compute. reflexivity.
Defined.


(** [start] sent to the freshly started server, whose target is where the
    cabin stands: ten ticks later the cabin still reports MOVING. *)
Lemma near_target_never_arrives_witness :
  position_km (STATE (sim_loop 10 (world_of (send_command no_strings (cmd start) World0))))
    = 0
  /\ running (STATE (sim_loop 10 (world_of (send_command no_strings (cmd start) World0))))
     = true
  /\ cabin (STATE (sim_loop 10 (world_of (send_command no_strings (cmd start) World0))))
     = MOVING
  /\ ((1 <= 10)%nat ->
      speed_ms (STATE (sim_loop 10 (world_of (send_command no_strings (cmd start) World0))))
      = lit 0).
Proof.
  refine (near_target_never_arrives
            (world_of (send_command no_strings (cmd start) World0)) 10 _ _);
    reflexivity.
Defined.

(** The first tick after [start] on the way to kilometre 50. *)
Lemma moving_tick_never_overshoots_witness :
  STATE (tick (started no_strings))
  = mkState 50 0 0 CLOSED false 50 IDLE
  \/ (running (STATE (tick (started no_strings))) = true
      /\ cabin (STATE (tick (started no_strings))) = MOVING
      /\ target_km (STATE (tick (started no_strings))) = 50
      /\ ((0 <? 50) = true
          /\ speed_ms (STATE (tick (started no_strings))) = 20
          /\ (0 <=? position_km (STATE (tick (started no_strings)))) = true
          /\ (position_km (STATE (tick (started no_strings))) <? 50) = true
          \/ (50 <? 0) = true
             /\ speed_ms (STATE (tick (started no_strings))) = - 20
             /\ (50 <? position_km (STATE (tick (started no_strings)))) = true
             /\ (position_km (STATE (tick (started no_strings))) <=? 0) = true)).
Proof.
  refine (moving_tick_never_overshoots no_strings (started no_strings) _ _ _ _).
  - exists [Cmd (cmd_with set_target "km" (PyInt 50)); Cmd (cmd start)].
    vm_compute. reflexivity.
  - reflexivity.
  - reflexivity.
  - vm_compute. reflexivity.
Defined.

End MoreWitnesses.

